(** * cat_math_app: problem-generation engines and session stores

    A shallow embedding of the TypeScript engines (divisibility, percentage,
    ratio comparison, addition chain) and of the three zustand stores, with
    the properties of the specification stated and proved over it.

    Conventions.
    - A JavaScript [number] that the code only ever uses as an integer
      (counters, operands, indices, millisecond timestamps) is a [Z].
    - A [number] that takes part in a division, a rounding or a tolerance
      test is an IEEE 754 binary64 value: Rocq's primitive [float], which is
      the same format with the same round-to-nearest-even operations.
    - [Math.random()] reads the next element of a stream of raw draws; a
      draw [k] stands for the double [k / 2^53] with [0 <= k < 2^53].
    - [Date.now()] is an explicit argument of every action that reads the
      clock; all the reads within one action return it.
    - A statement that throws (reading a property of [undefined]) makes the
      enclosing action return [None]. *)

From Stdlib Require Import ZArith List Bool Lia String Ascii DecimalString.
From Stdlib Require Import Floats.
Import ListNotations.

Set Warnings "-inexact-float".

Local Open Scope Z_scope.

(* ================================================================== *)
(** * Part I: the embedding                                           *)
(* ================================================================== *)

(** ** JavaScript numbers *)

Module JS.

Definition number := float.

(** The double nearest to an integer (exact below 2^53). *)
Definition num (z : Z) : number :=
  SF2Prim (binary_normalize prec emax z 0 false).

(** The signed integer mantissa of a finite double [m * 2^e]. *)
Definition signed (s : bool) (m : positive) : Z :=
  if s then Z.neg m else Z.pos m.

(** [Math.floor]: the largest integer not above [x]; NaN, the infinities
    and both zeros are returned as they are. *)
Definition Math_floor (x : number) : number :=
  match Prim2SF x with
  | S754_finite s m e =>
      if 0 <=? e then x
      else num (signed s m / 2 ^ (- e))
  | _ => x
  end.

(** [Math.ceil]: the smallest integer not below [x]. *)
Definition Math_ceil (x : number) : number := (- Math_floor (- x))%float.

(** [Math.round]: the integer nearest to [x], a tie going up; a result of
    zero keeps the sign of [x]. *)
Definition Math_round (x : number) : number :=
  match Prim2SF x with
  | S754_finite s m e =>
      if 0 <=? e then x
      else
        let r := (2 * signed s m + 2 ^ (- e)) / 2 ^ (1 - e) in
        if (r =? 0) && s then neg_zero else num r
  | _ => x
  end.

Definition isNaN (x : number) : bool := is_nan x.

Definition isFinite (x : number) : bool :=
  negb (is_nan x || is_infinity x).

(** [Math.max] and [Math.min] of two numbers: NaN when either is NaN,
    and [+0] counts as larger than [-0]. *)
Definition Math_max (a b : number) : number :=
  if is_nan a || is_nan b then nan
  else if (a <? b)%float then b
  else if (b <? a)%float then a
  else if get_sign a then b else a.

Definition Math_min (a b : number) : number :=
  if is_nan a || is_nan b then nan
  else if (a <? b)%float then a
  else if (b <? a)%float then b
  else if get_sign a then a else b.

Definition Math_abs (x : number) : number := abs x.

(** [a > b] and [a >= b] on numbers. *)
Definition gtb (a b : number) : bool := (b <? a)%float.

(** An integer rendered in decimal, as a template string does it. *)
Definition Z_toString (z : Z) : string :=
  NilZero.string_of_int (Z.to_int z).

(** The integer a finite integral double stands for. *)
Definition integral (x : number) : option Z :=
  match Prim2SF x with
  | S754_zero _ => Some 0
  | S754_finite s m e =>
      if 0 <=? e then Some (signed s m * 2 ^ e)
      else if (signed s m) mod 2 ^ (- e) =? 0
           then Some (signed s m / 2 ^ (- e)) else None
  | _ => None
  end.

(** [String(x)] for the integral doubles the engines render (the ratio
    engine only ever prints integers below 10^21); other values are
    rendered as their kind, which keeps distinct numbers distinct from
    every integer. *)
Definition Number_toString (x : number) : string :=
  match integral x with
  | Some z => Z_toString z
  | None => if is_nan x then "NaN"%string else "non-integer"%string
  end.

(** [xs[i]]: [None] is [undefined], which is what an index outside the
    array reads. *)
Definition index {A} (xs : list A) (i : Z) : option A :=
  if i <? 0 then None else nth_error xs (Z.to_nat i).

(** What a getter declared [T | null] hands back at run time: [null], a
    value, or the [undefined] that a read outside an array gives. *)
Inductive Nullable (A : Type) :=
| JSnull
| JSundefined
| JSvalue (a : A).

Arguments JSnull {A}.
Arguments JSundefined {A}.
Arguments JSvalue {A} a.

(** [xs[i]] as a run-time value. *)
Definition read {A} (xs : list A) (i : Z) : Nullable A :=
  match index xs i with
  | Some x => JSvalue x
  | None => JSundefined
  end.

(** [xs.slice(-n)]: the last [n] elements. *)
Definition slice_last {A} (n : nat) (xs : list A) : list A :=
  skipn (List.length xs - n) xs.

(** Truthiness of a [number | null] timestamp: [null] and [0] are falsy. *)
Definition truthy (t : option Z) : option Z :=
  match t with
  | Some v => if v =? 0 then None else Some v
  | None => None
  end.

End JS.

(** The five difficulty levels [1 | 2 | 3 | 4 | 5] every engine shares. *)
Inductive Level := L1 | L2 | L3 | L4 | L5.

Definition levelNumber (l : Level) : Z :=
match l with L1 => 1 | L2 => 2 | L3 => 3 | L4 => 4 | L5 => 5 end.

Record Range := { min : Z; max : Z }.

(** ** The random source *)

Module Random.

(** The stream of raw draws still to come. *)
Definition Rng := nat -> Z.

(** A computation that consumes draws. *)
Definition Rand (A : Type) := Rng -> A * Rng.

Definition ret {A} (a : A) : Rand A := fun r => (a, r).

Definition bind {A B} (c : Rand A) (k : A -> Rand B) : Rand B :=
  fun r => let (a, r') := c r in k a r'.

(** The next draw, as the numerator [k] of [k / 2^53]. *)
Definition next : Rand Z :=
  fun r => (r O mod 2 ^ 53, fun n => r (S n)).

(** [Math.random()]: the double [k / 2^53], which is exact. *)
Definition Math_random : Rand JS.number :=
  bind next (fun k => ret (JS.num k / 0x1p53)%float).

(** [Math.floor(Math.random() * (max - min + 1)) + min] on integers, the
    product taken exactly: [floor (k * (max - min + 1) / 2^53) + min].
    The code multiplies in binary64, where a product just below an integer
    can round up to it, so on some draws the code returns the next
    integer; for the ranges of the tables both stay within [min, max],
    which is all the properties below use of a draw, apart from the fixed
    streams of the examples, whose products are exact. *)
Definition randomInt (min max : Z) : Rand Z :=
  bind next (fun k => ret (k * (max - min + 1) / 2 ^ 53 + min)).

(** The same expression evaluated in binary64, as the engines that work
    on fractions have it. *)
Definition randomInRange (min max : JS.number) : Rand JS.number :=
  bind Math_random
    (fun u => ret (JS.Math_floor (u * (max - min + 1)) + min)%float).

End Random.

Declare Scope rand_scope.
Delimit Scope rand_scope with rand.
Notation "x <- c ;; k" := (Random.bind c (fun x => k))
  (at level 61, c at next level, right associativity) : rand_scope.
Notation "' pat <- c ;; k" := (Random.bind c (fun x => match x with pat => k end))
  (at level 61, pat pattern, c at next level, right associativity) : rand_scope.

Import Random.
Local Open Scope rand_scope.

(** ** Divisibility and remainder engine (divisibilityEngine.ts) *)

Module DivisibilityEngine.

Definition DivisibilityDifficulty := Level.

Inductive RemainderType := positive_only | negative_only | both.

Record DivisibilityProblem := {
  dividend : Z;
  divisor : Z;
  quotient : Z;
  remainder : Z;
  negativeRemainder : Z;
  isDivisible : bool;
  display : string;
  difficulty : DivisibilityDifficulty
}.

Record DivisibilityConfig := {
  cfg_difficulty : DivisibilityDifficulty;
  remainderType : RemainderType;
  includeExactDivisibility : bool
}.

Record DifficultyRange := {
  dividendRange : Range;
  divisorRange : Range;
  description : string
}.

Definition difficultyRanges (d : DivisibilityDifficulty) : DifficultyRange :=
  match d with
  | L1 => {| dividendRange := {| min := 10; max := 50 |};
             divisorRange := {| min := 2; max := 5 |};
             description := "Easy: 2-digit ÷ small divisors (2-5)" |}
  | L2 => {| dividendRange := {| min := 20; max := 99 |};
             divisorRange := {| min := 2; max := 9 |};
             description := "Medium: 2-digit ÷ single digit" |}
  | L3 => {| dividendRange := {| min := 50; max := 200 |};
             divisorRange := {| min := 3; max := 12 |};
             description := "Challenging: 2-3 digit ÷ up to 12" |}
  | L4 => {| dividendRange := {| min := 100; max := 500 |};
             divisorRange := {| min := 5; max := 25 |};
             description := "Hard: 3-digit ÷ 2-digit divisors" |}
  | L5 => {| dividendRange := {| min := 200; max := 999 |};
             divisorRange := {| min := 7; max := 50 |};
             description := "Expert: Large dividends & divisors" |}
  end.

(** [`${dividend} ÷ ${divisor}`]. *)
Definition displayOf (dividend divisor : Z) : string :=
  (JS.Z_toString dividend ++ " ÷ " ++ JS.Z_toString divisor)%string.

(** [Math.ceil(a / b)] and [Math.floor(a / b)] of two integers. *)
Definition ceilDiv (a b : Z) : Z := - ((- a) / b).
Definition floorDiv (a b : Z) : Z := a / b.

Definition generateExactDivisibilityProblem (difficulty : DivisibilityDifficulty)
  : Rand DivisibilityProblem :=
  let config := difficultyRanges difficulty in
  divisor <- randomInt (min (divisorRange config)) (max (divisorRange config)) ;;
  let minQuotient := ceilDiv (min (dividendRange config)) divisor in
  let maxQuotient := floorDiv (max (dividendRange config)) divisor in
  quotient <- randomInt (Z.max 2 minQuotient) (Z.max 3 maxQuotient) ;;
  let dividend := quotient * divisor in
  ret {| dividend := dividend;
         divisor := divisor;
         quotient := quotient;
         remainder := 0;
         negativeRemainder := 0;
         isDivisible := true;
         display := displayOf dividend divisor;
         difficulty := difficulty |}.

(** The loop [do { dividend = randomInt(..); attempts++ } while (dividend %
    divisor === 0 && attempts < 50)], entered with [attempts] iterations
    done.  [budget] is the number of further iterations the guard
    [attempts < 50] can still allow after this one, [49 - attempts]; it only
    makes the recursion structural (see [sampleDividend_exit]). *)
Fixpoint sampleDividend (budget : nat) (attempts : Z) (range : Range) (divisor : Z)
  : Rand (Z * Z) :=
  dividend <- randomInt (min range) (max range) ;;
  let attempts := attempts + 1 in
  match budget with
  | S budget' =>
      if (Z.rem dividend divisor =? 0) && (attempts <? 50)
      then sampleDividend budget' attempts range divisor
      else ret (dividend, attempts)
  | O => ret (dividend, attempts)
  end.

Definition generateRemainderProblem (difficulty : DivisibilityDifficulty)
  : Rand DivisibilityProblem :=
  let config := difficultyRanges difficulty in
  divisor <- randomInt (min (divisorRange config)) (max (divisorRange config)) ;;
  '(dividend, _) <- sampleDividend 49 0 (dividendRange config) divisor ;;
  dividend <- (if Z.rem dividend divisor =? 0
               then offset <- randomInt 1 (divisor - 1) ;; ret (dividend + offset)
               else ret dividend) ;;
  let quotient := floorDiv dividend divisor in
  let remainder := Z.rem dividend divisor in
  let negativeRemainder := if 0 <? remainder then remainder - divisor else 0 in
  ret {| dividend := dividend;
         divisor := divisor;
         quotient := quotient;
         remainder := remainder;
         negativeRemainder := negativeRemainder;
         isDivisible := false;
         display := displayOf dividend divisor;
         difficulty := difficulty |}.

(** [includeExactDivisibility && Math.random() < 0.3]: the draw is only
    made when exact problems are enabled. *)
Definition generateDivisibilityProblem (config : DivisibilityConfig)
  : Rand DivisibilityProblem :=
  shouldBeExact <- (if includeExactDivisibility config
                    then u <- Math_random ;; ret (u <? 0.3)%float
                    else ret false) ;;
  if shouldBeExact
  then generateExactDivisibilityProblem (cfg_difficulty config)
  else generateRemainderProblem (cfg_difficulty config).

Definition generateDefaultProblem (difficulty : DivisibilityDifficulty)
  : Rand DivisibilityProblem :=
  generateDivisibilityProblem
    {| cfg_difficulty := difficulty;
       remainderType := positive_only;
       includeExactDivisibility := true |}.

Definition validateDivisibilityAnswer (problem : DivisibilityProblem)
    (userSaidDivisible : bool) : bool :=
  Bool.eqb userSaidDivisible (isDivisible problem).

Definition validateRemainderAnswer (problem : DivisibilityProblem)
    (userRemainder : Z) (acceptNegative : bool) : bool :=
  if isDivisible problem && (userRemainder =? 0) then true
  else if userRemainder =? remainder problem then true
  else if acceptNegative && (userRemainder =? negativeRemainder problem) then true
  else false.

(** [hints[divisor] || null]: the table has an entry for 2 to 12. *)
Definition getDivisibilityHint (divisor : Z) : option string :=
  match divisor with
  | 2 => Some "A number is divisible by 2 if its last digit is even (0, 2, 4, 6, 8)"
  | 3 => Some "A number is divisible by 3 if the sum of its digits is divisible by 3"
  | 4 => Some "A number is divisible by 4 if its last two digits form a number divisible by 4"
  | 5 => Some "A number is divisible by 5 if its last digit is 0 or 5"
  | 6 => Some "A number is divisible by 6 if it's divisible by both 2 and 3"
  | 7 => Some "Double the last digit, subtract from the rest. If result is divisible by 7, so is the original"
  | 8 => Some "A number is divisible by 8 if its last three digits form a number divisible by 8"
  | 9 => Some "A number is divisible by 9 if the sum of its digits is divisible by 9"
  | 10 => Some "A number is divisible by 10 if its last digit is 0"
  | 11 => Some "Alternately add and subtract digits from right to left. If result is divisible by 11, so is the original"
  | 12 => Some "A number is divisible by 12 if it's divisible by both 3 and 4"
  | _ => None
  end%string.

End DivisibilityEngine.

(** ** Percentage engine (percentageEngine.ts) *)

Module PercentageEngine.

Import JS.
Local Open Scope float_scope.

Definition PercentageDifficulty := Level.

(** The type [1 | 2] of required decimal places. *)
Inductive DecimalPlaces := One | Two.

Record PercentageProblem := {
  numerator : number;
  denominator : number;
  question : string;
  answer : number;
  difficulty : PercentageDifficulty;
  decimalPlaces : DecimalPlaces
}.

Record Config := {
  numRange : number * number;
  denRange : number * number;
  allowOver100 : bool;
  cfg_decimalPlaces : DecimalPlaces
}.

Definition DIFFICULTY_CONFIG (d : PercentageDifficulty) : Config :=
  match d with
  | L1 => {| numRange := (10, 45); denRange := (50, 100);
             allowOver100 := false; cfg_decimalPlaces := One |}
  | L2 => {| numRange := (15, 70); denRange := (40, 120);
             allowOver100 := false; cfg_decimalPlaces := One |}
  | L3 => {| numRange := (20, 90); denRange := (50, 150);
             allowOver100 := false; cfg_decimalPlaces := Two |}
  | L4 => {| numRange := (30, 180); denRange := (60, 200);
             allowOver100 := true; cfg_decimalPlaces := Two |}
  | L5 => {| numRange := (50, 300); denRange := (70, 250);
             allowOver100 := true; cfg_decimalPlaces := Two |}
  end.

(** [Math.pow(10, decimalPlaces)]. *)
Definition pow10 (dp : DecimalPlaces) : number :=
  match dp with One => 10 | Two => 100 end.

Definition calculatePercentage (numerator denominator : number)
    (decimalPlaces : DecimalPlaces) : number :=
  let percentage := (numerator / denominator) * 100 in
  let multiplier := pow10 decimalPlaces in
  Math_round (percentage * multiplier) / multiplier.

Definition tolerance (decimalPlaces : DecimalPlaces) : number :=
  match decimalPlaces with One => 0.05 | Two => 0.005 end.

Definition isPercentageCorrect (userAnswer correctAnswer : number)
    (decimalPlaces : DecimalPlaces) : bool :=
  Math_abs (userAnswer - correctAnswer) <=? tolerance decimalPlaces.

(** The condition of the [do ... while]: the sample is thrown away. *)
Definition rejected (difficulty : PercentageDifficulty) (percentage : number) : bool :=
  (percentage =? 50) || (percentage =? 100) || (percentage =? 25)
  || (percentage =? 75)
  || ((levelNumber difficulty <? 3)%Z && (percentage <? 15))
  || isNaN percentage
  || negb (isFinite percentage).

(** One pass through the body of the loop. *)
Definition sample (difficulty : PercentageDifficulty)
  : Rand (number * number * number) :=
  let config := DIFFICULTY_CONFIG difficulty in
  denominator <- randomInRange (fst (denRange config)) (snd (denRange config)) ;;
  numerator <-
    (if allowOver100 config
     then randomInRange (fst (numRange config)) (snd (numRange config))
     else
       let maxNum := Math_min (snd (numRange config)) (denominator - 1) in
       randomInRange (fst (numRange config)) maxNum) ;;
  let percentage :=
    calculatePercentage numerator denominator (cfg_decimalPlaces config) in
  ret (numerator, denominator, percentage).

(** The source loop has no retry counter, so the model takes the number of
    iterations it may run as [fuel] and answers [None] when they are used
    up without an accepted sample. *)
Fixpoint sampleLoop (fuel : nat) (difficulty : PercentageDifficulty)
  : Rand (option (number * number * number)) :=
  match fuel with
  | O => ret None
  | S fuel' =>
      '(numerator, denominator, percentage) <- sample difficulty ;;
      if rejected difficulty percentage
      then sampleLoop fuel' difficulty
      else ret (Some (numerator, denominator, percentage))
  end.

Definition generatePercentageProblem (fuel : nat) (difficulty : PercentageDifficulty)
  : Rand (option PercentageProblem) :=
  found <- sampleLoop fuel difficulty ;;
  match found with
  | None => ret None
  | Some (numerator, denominator, percentage) =>
      ret (Some
        {| numerator := numerator;
           denominator := denominator;
           question := (Number_toString numerator ++ "/"
                        ++ Number_toString denominator)%string;
           answer := percentage;
           difficulty := difficulty;
           decimalPlaces := cfg_decimalPlaces (DIFFICULTY_CONFIG difficulty) |})
  end.

End PercentageEngine.

(** ** Ratio comparison engine (ratioEngine.ts) *)

Module RatioEngine.

Import JS.
Local Open Scope float_scope.

Definition RatioDifficulty := Level.

Record Ratio := {
  numerator : number;
  denominator : number;
  value : number;
  display : string
}.

Inductive Answer := A | B.

Record RatioComparisonProblem := {
  ratioA : Ratio;
  ratioB : Ratio;
  correctAnswer : Answer;
  difficulty : RatioDifficulty;
  percentageDiff : number
}.

Record Config := {
  numRange : number * number;
  denRange : number * number;
  minDiffPercent : number;
  maxDiffPercent : number
}.

Definition DIFFICULTY_CONFIG (d : RatioDifficulty) : Config :=
  match d with
  | L1 => {| numRange := (10, 50); denRange := (20, 80);
             minDiffPercent := 15; maxDiffPercent := 40 |}
  | L2 => {| numRange := (15, 80); denRange := (30, 120);
             minDiffPercent := 8; maxDiffPercent := 15 |}
  | L3 => {| numRange := (20, 120); denRange := (40, 180);
             minDiffPercent := 4; maxDiffPercent := 8 |}
  | L4 => {| numRange := (50, 200); denRange := (80, 250);
             minDiffPercent := 2; maxDiffPercent := 4 |}
  | L5 => {| numRange := (100, 300); denRange := (120, 350);
             minDiffPercent := 0.5; maxDiffPercent := 2 |}
  end.

Definition createRatio (numerator denominator : number) : Ratio :=
  {| numerator := numerator;
     denominator := denominator;
     value := numerator / denominator;
     display := (Number_toString numerator ++ "/"
                 ++ Number_toString denominator)%string |}.

Definition getPercentageDifference (ratio1 ratio2 : Ratio) : number :=
  let larger := Math_max (value ratio1) (value ratio2) in
  let smaller := Math_min (value ratio1) (value ratio2) in
  ((larger - smaller) / smaller) * 100.

Definition maxAttempts : Z := 100.

(** The two ratios of one pass through the body of the loop. *)
Definition samplePair (difficulty : RatioDifficulty) : Rand (Ratio * Ratio) :=
  let config := DIFFICULTY_CONFIG difficulty in
  num1 <- randomInRange (fst (numRange config)) (snd (numRange config)) ;;
  den1 <- randomInRange (fst (denRange config)) (snd (denRange config)) ;;
  let ratioA := createRatio num1 den1 in
  if (4 <=? levelNumber difficulty)%Z then
    let basePercentage := (num1 / den1) * 100 in
    u <- Math_random ;;
    offset <- randomInRange (minDiffPercent config * 10)
                            (maxDiffPercent config * 10) ;;
    let targetPercentage :=
      basePercentage + (if gtb u 0.5 then 1 else -1) * offset / 10 in
    den2 <- randomInRange (fst (denRange config)) (snd (denRange config)) ;;
    let num2 := Math_round ((targetPercentage / 100) * den2) in
    if gtb num2 0 && (num2 <? den2 * 2) then
      ret (ratioA, createRatio num2 den2)
    else
      n <- randomInRange (fst (numRange config)) (snd (numRange config)) ;;
      d <- randomInRange (fst (denRange config)) (snd (denRange config)) ;;
      ret (ratioA, createRatio n d)
  else
    num2 <- randomInRange (fst (numRange config)) (snd (numRange config)) ;;
    den2 <- randomInRange (fst (denRange config)) (snd (denRange config)) ;;
    ret (ratioA, createRatio num2 den2).

(** The first conjunct of the loop guard: the pair is not acceptable. *)
Definition unacceptable (config : Config) (ratioA ratioB : Ratio)
    (percentageDiff : number) : bool :=
  (percentageDiff <? minDiffPercent config)
  || gtb percentageDiff (maxDiffPercent config)
  || (value ratioA =? value ratioB)
  || String.eqb (display ratioA) (display ratioB).

(** The [do ... while (unacceptable && attempts < maxAttempts)] loop,
    entered with [attempts] iterations done; [budget] is the number of
    further iterations the guard can still allow after this one
    (see [sampleRatios_exit]). *)
Fixpoint sampleRatios (budget : nat) (attempts : Z) (difficulty : RatioDifficulty)
  : Rand (Ratio * Ratio * number * Z) :=
  let attempts := (attempts + 1)%Z in
  '(ratioA, ratioB) <- samplePair difficulty ;;
  let percentageDiff := getPercentageDifference ratioA ratioB in
  match budget with
  | S budget' =>
      if unacceptable (DIFFICULTY_CONFIG difficulty) ratioA ratioB percentageDiff
         && (attempts <? maxAttempts)%Z
      then sampleRatios budget' attempts difficulty
      else ret (ratioA, ratioB, percentageDiff, attempts)
  | O => ret (ratioA, ratioB, percentageDiff, attempts)
  end.

(** The fallback taken when [attempts >= maxAttempts]. *)
Definition fallback (config : Config) (ratioA : Ratio) : Ratio :=
  let adjustment := 1 + (minDiffPercent config / 100) in
  createRatio (Math_round (numerator ratioA * adjustment)) (denominator ratioA).

Definition generateRatioComparison (difficulty : RatioDifficulty)
  : Rand RatioComparisonProblem :=
  let config := DIFFICULTY_CONFIG difficulty in
  '(ratioA, ratioB, percentageDiff, attempts) <- sampleRatios 99 0 difficulty ;;
  let '(ratioB, percentageDiff) :=
    if (maxAttempts <=? attempts)%Z
    then let ratioB := fallback config ratioA in
         (ratioB, getPercentageDifference ratioA ratioB)
    else (ratioB, percentageDiff) in
  u <- Math_random ;;
  let '(ratioA, ratioB) := if gtb u 0.5 then (ratioB, ratioA) else (ratioA, ratioB) in
  let correctAnswer := if gtb (value ratioA) (value ratioB) then A else B in
  ret {| ratioA := ratioA;
         ratioB := ratioB;
         correctAnswer := correctAnswer;
         difficulty := difficulty;
         percentageDiff := Math_round (percentageDiff * 100) / 100 |}.

End RatioEngine.

(** ** Addition chain engine (chainEngine.ts) *)

Module ChainEngine.

Definition ChainDifficulty := Level.

Record ChainStep := {
  stepNumber : Z;
  previousResult : Z;
  addend : Z;
  result : Z;
  display : string
}.

Record ChainConfig := {
  minLength : Z;
  maxLength : Z;
  cfg_difficulty : ChainDifficulty
}.

Record GeneratedChain := {
  steps : list ChainStep;
  totalLength : Z;
  finalResult : Z;
  difficulty : ChainDifficulty
}.

Record DifficultyRange := {
  startingNumbers : Range;
  addendProgression : Range * Range * Range * Range;
  description : string
}.

Definition difficultyRanges (d : ChainDifficulty) : DifficultyRange :=
  match d with
  | L1 => {| startingNumbers := {| min := 10; max := 50 |};
             addendProgression :=
               ({| min := 10; max := 30 |}, {| min := 20; max := 50 |},
                {| min := 30; max := 70 |}, {| min := 40; max := 99 |});
             description := "Easy: 2-digit additions" |}
  | L2 => {| startingNumbers := {| min := 20; max := 99 |};
             addendProgression :=
               ({| min := 20; max := 60 |}, {| min := 50; max := 150 |},
                {| min := 100; max := 300 |}, {| min := 200; max := 500 |});
             description := "Medium: 2 to 3-digit additions" |}
  | L3 => {| startingNumbers := {| min := 50; max := 200 |};
             addendProgression :=
               ({| min := 50; max := 150 |}, {| min := 100; max := 400 |},
                {| min := 300; max := 700 |}, {| min := 500; max := 999 |});
             description := "Challenging: 2 to 4-digit results" |}
  | L4 => {| startingNumbers := {| min := 100; max := 500 |};
             addendProgression :=
               ({| min := 100; max := 400 |}, {| min := 300; max := 800 |},
                {| min := 500; max := 1500 |}, {| min := 1000; max := 3000 |});
             description := "Hard: Up to 4-digit results" |}
  | L5 => {| startingNumbers := {| min := 200; max := 999 |};
             addendProgression :=
               ({| min := 200; max := 600 |}, {| min := 500; max := 1500 |},
                {| min := 1000; max := 5000 |}, {| min := 3000; max := 9999 |});
             description := "Expert: Up to 5-digit results" |}
  end.

Definition getAddendRange (stepNumber : Z) (difficulty : ChainDifficulty) : Range :=
  let '(r0, r1, r2, r3) := addendProgression (difficultyRanges difficulty) in
  if stepNumber <=? 5 then r0
  else if stepNumber <=? 10 then r1
  else if stepNumber <=? 15 then r2
  else r3.

Definition generateStartingPair (difficulty : ChainDifficulty) : Rand (Z * Z) :=
  let range := startingNumbers (difficultyRanges difficulty) in
  first <- randomInt (min range) (max range) ;;
  second <- randomInt (min range) (max range) ;;
  ret (first, second).

(** [n.toLocaleString()] in the en-US locale: decimal digits in groups of
    three separated by commas. *)
Fixpoint group3 (digits : list ascii) (k : nat) : list ascii :=
  match digits with
  | [] => []
  | d :: rest =>
      match k with
      | 3%nat => ","%char :: d :: group3 rest 1
      | _ => d :: group3 rest (S k)
      end
  end.

Definition toLocaleString (z : Z) : string :=
  let digits := list_ascii_of_string (JS.Z_toString (Z.abs z)) in
  let grouped := string_of_list_ascii (rev (group3 (rev digits) 0)) in
  if z <? 0 then ("-" ++ grouped)%string else grouped.

(** The loop [for (let i = 2; i <= totalLength; i++)], entered at [i] with
    [count] iterations left to run; it appends to [steps]. *)
Fixpoint remainingSteps (count : nat) (i : Z) (difficulty : ChainDifficulty)
    (currentResult : Z) (steps : list ChainStep) : Rand (list ChainStep * Z) :=
  match count with
  | O => ret (steps, currentResult)
  | S count' =>
      let addendRange := getAddendRange i difficulty in
      addend <- randomInt (min addendRange) (max addendRange) ;;
      let previousResult := currentResult in
      let currentResult := previousResult + addend in
      remainingSteps count' (i + 1) difficulty currentResult
        (steps ++ [{| stepNumber := i;
                      previousResult := previousResult;
                      addend := addend;
                      result := currentResult;
                      display := (toLocaleString previousResult ++ " + "
                                  ++ toLocaleString addend ++ " = ?")%string |}])
  end.

Definition generateChain (config : ChainConfig) : Rand GeneratedChain :=
  totalLength <- randomInt (minLength config) (maxLength config) ;;
  '(first, second) <- generateStartingPair (cfg_difficulty config) ;;
  let currentResult := first + second in
  let steps :=
    [{| stepNumber := 1;
        previousResult := first;
        addend := second;
        result := currentResult;
        display := (JS.Z_toString first ++ " + " ++ JS.Z_toString second
                    ++ " = ?")%string |}] in
  '(steps, currentResult) <-
    remainingSteps (Z.to_nat (totalLength - 1)) 2 (cfg_difficulty config)
                   currentResult steps ;;
  ret {| steps := steps;
         totalLength := totalLength;
         finalResult := currentResult;
         difficulty := cfg_difficulty config |}.

Definition generateDefaultChain (difficulty : ChainDifficulty) : Rand GeneratedChain :=
  generateChain {| minLength := 10; maxLength := 20; cfg_difficulty := difficulty |}.

Definition validateStepAnswer (step : ChainStep) (userAnswer : Z) : bool :=
  userAnswer =? result step.

Record ChainStats := {
  totalSteps : JS.number;
  correctSteps : JS.number;
  accuracy : JS.number;
  averageTimePerStep : JS.number;
  completed : bool;
  finalScore : JS.number
}.

Definition calculateChainStats (totalSteps correctSteps totalTimeMs : JS.number)
    (completed : bool) : ChainStats :=
  (let accuracy :=
     if JS.gtb totalSteps 0 then (correctSteps / totalSteps) * 100 else 0 in
   let averageTimePerStep :=
     if JS.gtb totalSteps 0 then totalTimeMs / totalSteps / 1000 else 0 in
   let basePoints := correctSteps * 10 in
   let accuracyBonus := JS.Math_round (accuracy * 2) in
   let speedBonus :=
     if averageTimePerStep <? 5
     then JS.Math_round ((5 - averageTimePerStep) * 10) else 0 in
   let completionBonus := if completed then 50 else 0 in
   let finalScore := basePoints + accuracyBonus + speedBonus + completionBonus in
   {| totalSteps := totalSteps;
      correctSteps := correctSteps;
      accuracy := JS.Math_round accuracy;
      averageTimePerStep := JS.Math_round (averageTimePerStep * 10) / 10;
      completed := completed;
      finalScore := finalScore |})%float.

End ChainEngine.

(** ** The simple game store (store.ts) *)

Module GameStore.

Inductive GameMode := addition | subtraction | percentage | ratio.

Definition Difficulty := Level.

Record GameStats := {
  totalQuestions : Z;
  correctAnswers : Z;
  currentStreak : Z;
  bestStreak : Z;
  averageTime : JS.number;
  sessionTimes : list JS.number
}.

Record GameState := {
  mode : GameMode;
  difficulty : Difficulty;
  isPlaying : bool;
  currentQuestion : option string;
  currentAnswer : option Z;
  questionStartTime : option Z;
  stats : GameStats
}.

Definition initialStats : GameStats :=
  {| totalQuestions := 0;
     correctAnswers := 0;
     currentStreak := 0;
     bestStreak := 0;
     averageTime := 0%float;
     sessionTimes := [] |}.

Definition initialState : GameState :=
  {| mode := addition;
     difficulty := L1;
     isPlaying := false;
     currentQuestion := None;
     currentAnswer := None;
     questionStartTime := None;
     stats := initialStats |}.

Definition setMode (m : GameMode) (s : GameState) : GameState :=
  {| mode := m; difficulty := difficulty s; isPlaying := isPlaying s;
     currentQuestion := currentQuestion s; currentAnswer := currentAnswer s;
     questionStartTime := questionStartTime s; stats := stats s |}.

Definition setDifficulty (d : Difficulty) (s : GameState) : GameState :=
  {| mode := mode s; difficulty := d; isPlaying := isPlaying s;
     currentQuestion := currentQuestion s; currentAnswer := currentAnswer s;
     questionStartTime := questionStartTime s; stats := stats s |}.

Definition startGame (now : Z) (s : GameState) : GameState :=
  {| mode := mode s; difficulty := difficulty s; isPlaying := true;
     currentQuestion := currentQuestion s; currentAnswer := currentAnswer s;
     questionStartTime := Some now; stats := stats s |}.

Definition endGame (s : GameState) : GameState :=
  {| mode := mode s; difficulty := difficulty s; isPlaying := false;
     currentQuestion := None; currentAnswer := None;
     questionStartTime := None; stats := stats s |}.

Definition setQuestion (question : string) (answer : Z) (now : Z)
    (s : GameState) : GameState :=
  {| mode := mode s; difficulty := difficulty s; isPlaying := isPlaying s;
     currentQuestion := Some question; currentAnswer := Some answer;
     questionStartTime := Some now; stats := stats s |}.

(** [userAnswer === state.currentAnswer]: never true of [null]. *)
Definition sameAnswer (userAnswer : Z) (currentAnswer : option Z) : bool :=
  match currentAnswer with
  | Some a => userAnswer =? a
  | None => false
  end.

Definition submitAnswer (userAnswer : Z) (now : Z) (s : GameState)
  : bool * GameState :=
  let isCorrect := sameAnswer userAnswer (currentAnswer s) in
  let timeTaken :=
    match JS.truthy (questionStartTime s) with
    | Some t => (JS.num (now - t) / 1000)%float
    | None => 0%float
    end in
  let newSessionTimes := sessionTimes (stats s) ++ [timeTaken] in
  let newTotalQuestions := totalQuestions (stats s) + 1 in
  let newCorrectAnswers := correctAnswers (stats s) + (if isCorrect then 1 else 0) in
  let newCurrentStreak := if isCorrect then currentStreak (stats s) + 1 else 0 in
  let newBestStreak := Z.max (bestStreak (stats s)) newCurrentStreak in
  let newAverageTime :=
    (fold_left PrimFloat.add newSessionTimes 0
     / JS.num (Z.of_nat (List.length newSessionTimes)))%float in
  (isCorrect,
   {| mode := mode s; difficulty := difficulty s; isPlaying := isPlaying s;
      currentQuestion := currentQuestion s; currentAnswer := currentAnswer s;
      questionStartTime := questionStartTime s;
      stats := {| totalQuestions := newTotalQuestions;
                  correctAnswers := newCorrectAnswers;
                  currentStreak := newCurrentStreak;
                  bestStreak := newBestStreak;
                  averageTime := newAverageTime;
                  sessionTimes := newSessionTimes |} |}).

Definition resetStats (s : GameState) : GameState :=
  {| mode := mode s; difficulty := difficulty s; isPlaying := isPlaying s;
     currentQuestion := currentQuestion s; currentAnswer := currentAnswer s;
     questionStartTime := questionStartTime s; stats := initialStats |}.

Inductive Action :=
| SetMode (m : GameMode)
| SetDifficulty (d : Difficulty)
| StartGame (now : Z)
| EndGame
| SetQuestion (question : string) (answer : Z) (now : Z)
| SubmitAnswer (userAnswer : Z) (now : Z)
| ResetStats.

Definition step (a : Action) (s : GameState) : GameState :=
  match a with
  | SetMode m => setMode m s
  | SetDifficulty d => setDifficulty d s
  | StartGame now => startGame now s
  | EndGame => endGame s
  | SetQuestion q ans now => setQuestion q ans now s
  | SubmitAnswer ans now => snd (submitAnswer ans now s)
  | ResetStats => resetStats s
  end.

End GameStore.

(** ** The arithmetic mode's answer handler (MathGame.tsx) *)

Module MathGame.

Inductive Operation := addition | subtraction.

(** [MathProblem] of mathEngine.ts. *)
Record MathProblem := {
  operand1 : Z;
  operand2 : Z;
  operation : Operation;
  question : string;
  answer : Z;
  difficulty : Level
}.

(** What [handleAnswer] does to the store (its component-local feedback
    and counters are left out): nothing when [problem] is [null],
    otherwise [setQuestion] followed by [submitAnswer]. *)
Definition handleAnswer (problem : option MathProblem) (userAnswer : Z) (now : Z)
    (s : GameStore.GameState) : GameStore.GameState :=
  match problem with
  | None => s
  | Some p =>
      snd (GameStore.submitAnswer userAnswer now
             (GameStore.setQuestion (question p) (answer p) now s))
  end.

End MathGame.

(** ** Arithmetic engine (mathEngine.ts) *)

Module MathEngine.

Import MathGame.

Definition Difficulty := Level.

Record DigitConfig := { digits1 : Z; digits2 : Z }.

Definition DIFFICULTY_CONFIG (d : Difficulty) : DigitConfig :=
  match d with
  | L1 => {| digits1 := 2; digits2 := 2 |}
  | L2 => {| digits1 := 2; digits2 := 3 |}
  | L3 => {| digits1 := 3; digits2 := 3 |}
  | L4 => {| digits1 := 3; digits2 := 4 |}
  | L5 => {| digits1 := 4; digits2 := 5 |}
  end.

(** [Math.pow(10, digits - 1)] and [Math.pow(10, digits) - 1] bound the
    draw; the expression of the draw is that of [randomInt]. *)
Definition generateNumberWithDigits (digits : Z) : Rand Z :=
  let min := 10 ^ (digits - 1) in
  let max := 10 ^ digits - 1 in
  randomInt min max.

Definition generateAddition (difficulty : Difficulty) : Rand MathProblem :=
  let config := DIFFICULTY_CONFIG difficulty in
  operand1 <- generateNumberWithDigits (digits1 config) ;;
  operand2 <- generateNumberWithDigits (digits2 config) ;;
  let answer := operand1 + operand2 in
  ret {| operand1 := operand1;
         operand2 := operand2;
         operation := addition;
         question := (JS.Z_toString operand1 ++ " + "
                      ++ JS.Z_toString operand2)%string;
         answer := answer;
         difficulty := difficulty |}.

Definition generateSubtraction (difficulty : Difficulty) : Rand MathProblem :=
  let config := DIFFICULTY_CONFIG difficulty in
  num1 <- generateNumberWithDigits (digits1 config) ;;
  num2 <- generateNumberWithDigits (digits2 config) ;;
  let operand1 := Z.max num1 num2 in
  let operand2 := Z.min num1 num2 in
  let answer := operand1 - operand2 in
  ret {| operand1 := operand1;
         operand2 := operand2;
         operation := subtraction;
         question := (JS.Z_toString operand1 ++ " âˆ’ "
                      ++ JS.Z_toString operand2)%string;
         answer := answer;
         difficulty := difficulty |}.

(** The argument [Operation | "mixed"]. *)
Inductive OperationChoice := fixed (op : Operation) | mixed.

(** For ["mixed"], [ops[Math.floor(Math.random() * ops.length)]] with
    [ops = ["addition", "subtraction"]]; anything that is not ["addition"]
    goes to the subtraction. *)
Definition generateProblem (operation : OperationChoice) (difficulty : Difficulty)
  : Rand MathProblem :=
  operation <-
    match operation with
    | mixed =>
        i <- randomInt 0 1 ;; ret (JS.index [addition; subtraction] i)
    | fixed op => ret (Some op)
    end ;;
  match operation with
  | Some addition => generateAddition difficulty
  | _ => generateSubtraction difficulty
  end.

End MathEngine.

(** ** The percentage mode's answer handler (PercentageGame.tsx) *)

Module PercentageGame.

Import PercentageEngine.

Inductive FeedbackState := neutral | correct | incorrect.

(** The state the component keeps with [useState]. *)
Record State := {
  isPlaying : bool;
  difficulty : PercentageDifficulty;
  problem : option PercentageProblem;
  feedbackState : FeedbackState;
  value : string;
  questionCount : Z;
  sessionCorrect : Z;
  currentStreak : Z;
  startTime : option Z;
  elapsedTime : Z
}.

Definition isWhiteSpace (c : ascii) : bool :=
  match nat_of_ascii c with
  | 9%nat | 10%nat | 11%nat | 12%nat | 13%nat | 32%nat => true
  | _ => false
  end.

(** [!value.trim()]: nothing is left once the white space is trimmed.  The
    input handler only lets digits, [.] and [-] into [value]. *)
Definition blank (value : string) : bool :=
  forallb isWhiteSpace (list_ascii_of_string value).

(** What [handleAnswer] does before it returns; [userAnswer] is the
    number [parseFloat(value)].  The next problem is generated later, by
    the timer it starts. *)
Definition handleAnswer (userAnswer : JS.number) (s : State) : State :=
  match problem s with
  | None => s
  | Some p =>
      if blank (value s) then s
      else if JS.isNaN userAnswer then s
      else
        let isCorrect :=
          isPercentageCorrect userAnswer (answer p) (decimalPlaces p) in
        {| isPlaying := isPlaying s;
           difficulty := difficulty s;
           problem := problem s;
           feedbackState := if isCorrect then correct else incorrect;
           value := value s;
           questionCount := questionCount s + 1;
           sessionCorrect :=
             if isCorrect then sessionCorrect s + 1 else sessionCorrect s;
           currentStreak := if isCorrect then currentStreak s + 1 else 0;
           startTime := startTime s;
           elapsedTime := elapsedTime s |}
  end.

End PercentageGame.

(** ** The ratio mode's answer handler (RatioGame.tsx) *)

Module RatioGame.

Import RatioEngine.

Inductive FeedbackState := neutral | correct | incorrect.

Record State := {
  isPlaying : bool;
  difficulty : RatioDifficulty;
  problem : option RatioComparisonProblem;
  feedbackState : FeedbackState;
  selectedAnswer : option Answer;
  questionCount : Z;
  sessionCorrect : Z;
  currentStreak : Z;
  startTime : option Z;
  elapsedTime : Z
}.

Definition isNeutral (f : FeedbackState) : bool :=
  match f with neutral => true | _ => false end.

Definition sameAnswer (a b : Answer) : bool :=
  match a, b with
  | A, A | B, B => true
  | _, _ => false
  end.

(** What [handleAnswer] does before it returns; the next problem is
    generated later, by the timer it starts. *)
Definition handleAnswer (answer : Answer) (s : State) : State :=
  match problem s with
  | None => s
  | Some p =>
      if negb (isNeutral (feedbackState s)) then s
      else
        let isCorrect := sameAnswer answer (correctAnswer p) in
        {| isPlaying := isPlaying s;
           difficulty := difficulty s;
           problem := problem s;
           feedbackState := if isCorrect then correct else incorrect;
           selectedAnswer := Some answer;
           questionCount := questionCount s + 1;
           sessionCorrect :=
             if isCorrect then sessionCorrect s + 1 else sessionCorrect s;
           currentStreak := if isCorrect then currentStreak s + 1 else 0;
           startTime := startTime s;
           elapsedTime := elapsedTime s |}
  end.

End RatioGame.

(** ** The divisibility store (divisibilityStore.ts) *)

Module DivisibilityStore.

Import DivisibilityEngine.

Inductive DivisibilityPhase :=
  setup | divisibility_phase | remainder_phase | feedback | summary.

Inductive AnswerResult := correct | incorrect | pending.

Record ProblemResult := {
  problem : DivisibilityProblem;
  res_userDivisibilityAnswer : option bool;
  userRemainderAnswer : option Z;
  divisibilityCorrect : bool;
  remainderCorrect : bool;
  timeMs : Z
}.

Record State := {
  difficulty : DivisibilityDifficulty;
  acceptNegativeRemainders : bool;
  phase : DivisibilityPhase;
  currentProblem : option DivisibilityProblem;
  problemCount : Z;
  maxProblems : Z;
  results : list ProblemResult;
  userDivisibilityAnswer : option bool;
  divisibilityResult : AnswerResult;
  gameStartTime : option Z;
  problemStartTime : option Z;
  totalGamesPlayed : Z;
  totalProblemsAttempted : Z;
  totalCorrectDivisibility : Z;
  totalCorrectRemainder : Z;
  bestAccuracy : JS.number
}.

Definition initialState : State :=
  {| difficulty := L2;
     acceptNegativeRemainders := true;
     phase := setup;
     currentProblem := None;
     problemCount := 0;
     maxProblems := 10;
     results := [];
     userDivisibilityAnswer := None;
     divisibilityResult := pending;
     gameStartTime := None;
     problemStartTime := None;
     totalGamesPlayed := 0;
     totalProblemsAttempted := 0;
     totalCorrectDivisibility := 0;
     totalCorrectRemainder := 0;
     bestAccuracy := 0%float |}.

(** The configuration fields, which [set] overwrites one at a time. *)
Definition setDifficulty (d : DivisibilityDifficulty) (s : State) : State :=
  {| difficulty := d;
     acceptNegativeRemainders := acceptNegativeRemainders s;
     phase := phase s; currentProblem := currentProblem s;
     problemCount := problemCount s; maxProblems := maxProblems s;
     results := results s; userDivisibilityAnswer := userDivisibilityAnswer s;
     divisibilityResult := divisibilityResult s;
     gameStartTime := gameStartTime s; problemStartTime := problemStartTime s;
     totalGamesPlayed := totalGamesPlayed s;
     totalProblemsAttempted := totalProblemsAttempted s;
     totalCorrectDivisibility := totalCorrectDivisibility s;
     totalCorrectRemainder := totalCorrectRemainder s;
     bestAccuracy := bestAccuracy s |}.

Definition setAcceptNegativeRemainders (accept : bool) (s : State) : State :=
  {| difficulty := difficulty s;
     acceptNegativeRemainders := accept;
     phase := phase s; currentProblem := currentProblem s;
     problemCount := problemCount s; maxProblems := maxProblems s;
     results := results s; userDivisibilityAnswer := userDivisibilityAnswer s;
     divisibilityResult := divisibilityResult s;
     gameStartTime := gameStartTime s; problemStartTime := problemStartTime s;
     totalGamesPlayed := totalGamesPlayed s;
     totalProblemsAttempted := totalProblemsAttempted s;
     totalCorrectDivisibility := totalCorrectDivisibility s;
     totalCorrectRemainder := totalCorrectRemainder s;
     bestAccuracy := bestAccuracy s |}.

Definition setMaxProblems (count : Z) (s : State) : State :=
  {| difficulty := difficulty s;
     acceptNegativeRemainders := acceptNegativeRemainders s;
     phase := phase s; currentProblem := currentProblem s;
     problemCount := problemCount s; maxProblems := count;
     results := results s; userDivisibilityAnswer := userDivisibilityAnswer s;
     divisibilityResult := divisibilityResult s;
     gameStartTime := gameStartTime s; problemStartTime := problemStartTime s;
     totalGamesPlayed := totalGamesPlayed s;
     totalProblemsAttempted := totalProblemsAttempted s;
     totalCorrectDivisibility := totalCorrectDivisibility s;
     totalCorrectRemainder := totalCorrectRemainder s;
     bestAccuracy := bestAccuracy s |}.

Definition startGame (rng : Rng) (now : Z) (s : State) : State :=
  let problem := fst (generateDefaultProblem (difficulty s) rng) in
  {| difficulty := difficulty s;
     acceptNegativeRemainders := acceptNegativeRemainders s;
     phase := divisibility_phase;
     currentProblem := Some problem;
     problemCount := 1;
     maxProblems := maxProblems s;
     results := [];
     userDivisibilityAnswer := None;
     divisibilityResult := pending;
     gameStartTime := Some now;
     problemStartTime := Some now;
     totalGamesPlayed := totalGamesPlayed s;
     totalProblemsAttempted := totalProblemsAttempted s;
     totalCorrectDivisibility := totalCorrectDivisibility s;
     totalCorrectRemainder := totalCorrectRemainder s;
     bestAccuracy := bestAccuracy s |}.

Definition submitDivisibilityAnswer (answer : bool) (s : State) : bool * State :=
  match currentProblem s with
  | None => (false, s)
  | Some problem =>
      let isCorrect := validateDivisibilityAnswer problem answer in
      (isCorrect,
       {| difficulty := difficulty s;
          acceptNegativeRemainders := acceptNegativeRemainders s;
          phase := remainder_phase;
          currentProblem := currentProblem s;
          problemCount := problemCount s;
          maxProblems := maxProblems s;
          results := results s;
          userDivisibilityAnswer := Some answer;
          divisibilityResult := if isCorrect then correct else incorrect;
          gameStartTime := gameStartTime s;
          problemStartTime := problemStartTime s;
          totalGamesPlayed := totalGamesPlayed s;
          totalProblemsAttempted := totalProblemsAttempted s;
          totalCorrectDivisibility := totalCorrectDivisibility s;
          totalCorrectRemainder := totalCorrectRemainder s;
          bestAccuracy := bestAccuracy s |})
  end.

Definition isCorrectResult (r : AnswerResult) : bool :=
  match r with correct => true | _ => false end.

Definition submitRemainderAnswer (answer : Z) (now : Z) (s : State) : bool * State :=
  match currentProblem s, userDivisibilityAnswer s with
  | Some problem, Some userAnswer =>
      let isCorrect :=
        validateRemainderAnswer problem answer (acceptNegativeRemainders s) in
      let timeMs :=
        match JS.truthy (problemStartTime s) with
        | Some t => now - t
        | None => 0
        end in
      let result :=
        {| problem := problem;
           res_userDivisibilityAnswer := Some userAnswer;
           userRemainderAnswer := Some answer;
           divisibilityCorrect := isCorrectResult (divisibilityResult s);
           remainderCorrect := isCorrect;
           timeMs := timeMs |} in
      (isCorrect,
       {| difficulty := difficulty s;
          acceptNegativeRemainders := acceptNegativeRemainders s;
          phase := feedback;
          currentProblem := currentProblem s;
          problemCount := problemCount s;
          maxProblems := maxProblems s;
          results := results s ++ [result];
          userDivisibilityAnswer := userDivisibilityAnswer s;
          divisibilityResult := divisibilityResult s;
          gameStartTime := gameStartTime s;
          problemStartTime := problemStartTime s;
          totalGamesPlayed := totalGamesPlayed s;
          totalProblemsAttempted := totalProblemsAttempted s;
          totalCorrectDivisibility := totalCorrectDivisibility s;
          totalCorrectRemainder := totalCorrectRemainder s;
          bestAccuracy := bestAccuracy s |})
  | _, _ => (false, s)
  end.

(** [xs.filter(p).length]. *)
Definition count {A} (p : A -> bool) (xs : list A) : Z :=
  Z.of_nat (List.length (filter p xs)).

Definition sessionAccuracy (results : list ProblemResult) : JS.number :=
  let correctDiv := count divisibilityCorrect results in
  let correctRem := count remainderCorrect results in
  let totalAnswers := Z.of_nat (List.length results) * 2 in
  if 0 <? totalAnswers
  then JS.Math_round
         ((JS.num (correctDiv + correctRem) / JS.num totalAnswers) * 100)%float
  else 0%float.

Definition endGame (s : State) : State :=
  let correctDiv := count divisibilityCorrect (results s) in
  let correctRem := count remainderCorrect (results s) in
  {| difficulty := difficulty s;
     acceptNegativeRemainders := acceptNegativeRemainders s;
     phase := summary;
     currentProblem := currentProblem s;
     problemCount := problemCount s;
     maxProblems := maxProblems s;
     results := results s;
     userDivisibilityAnswer := userDivisibilityAnswer s;
     divisibilityResult := divisibilityResult s;
     gameStartTime := gameStartTime s;
     problemStartTime := problemStartTime s;
     totalGamesPlayed := totalGamesPlayed s + 1;
     totalProblemsAttempted :=
       totalProblemsAttempted s + Z.of_nat (List.length (results s));
     totalCorrectDivisibility := totalCorrectDivisibility s + correctDiv;
     totalCorrectRemainder := totalCorrectRemainder s + correctRem;
     bestAccuracy := JS.Math_max (bestAccuracy s) (sessionAccuracy (results s)) |}.

Definition nextProblem (rng : Rng) (now : Z) (s : State) : State :=
  if maxProblems s <=? problemCount s then endGame s
  else
    let problem := fst (generateDefaultProblem (difficulty s) rng) in
    {| difficulty := difficulty s;
       acceptNegativeRemainders := acceptNegativeRemainders s;
       phase := divisibility_phase;
       currentProblem := Some problem;
       problemCount := problemCount s + 1;
       maxProblems := maxProblems s;
       results := results s;
       userDivisibilityAnswer := None;
       divisibilityResult := pending;
       gameStartTime := gameStartTime s;
       problemStartTime := Some now;
       totalGamesPlayed := totalGamesPlayed s;
       totalProblemsAttempted := totalProblemsAttempted s;
       totalCorrectDivisibility := totalCorrectDivisibility s;
       totalCorrectRemainder := totalCorrectRemainder s;
       bestAccuracy := bestAccuracy s |}.

Definition resetGame (s : State) : State :=
  {| difficulty := difficulty s;
     acceptNegativeRemainders := acceptNegativeRemainders s;
     phase := setup;
     currentProblem := None;
     problemCount := 0;
     maxProblems := maxProblems s;
     results := [];
     userDivisibilityAnswer := None;
     divisibilityResult := pending;
     gameStartTime := None;
     problemStartTime := None;
     totalGamesPlayed := totalGamesPlayed s;
     totalProblemsAttempted := totalProblemsAttempted s;
     totalCorrectDivisibility := totalCorrectDivisibility s;
     totalCorrectRemainder := totalCorrectRemainder s;
     bestAccuracy := bestAccuracy s |}.

Inductive Action :=
| SetDifficulty (d : DivisibilityDifficulty)
| SetAcceptNegativeRemainders (accept : bool)
| SetMaxProblems (count : Z)
| StartGame (rng : Rng) (now : Z)
| SubmitDivisibilityAnswer (answer : bool)
| SubmitRemainderAnswer (answer : Z) (now : Z)
| NextProblem (rng : Rng) (now : Z)
| EndGame
| ResetGame.

Definition step (a : Action) (s : State) : State :=
  match a with
  | SetDifficulty d => setDifficulty d s
  | SetAcceptNegativeRemainders b => setAcceptNegativeRemainders b s
  | SetMaxProblems n => setMaxProblems n s
  | StartGame rng now => startGame rng now s
  | SubmitDivisibilityAnswer b => snd (submitDivisibilityAnswer b s)
  | SubmitRemainderAnswer r now => snd (submitRemainderAnswer r now s)
  | NextProblem rng now => nextProblem rng now s
  | EndGame => endGame s
  | ResetGame => resetGame s
  end.

Definition getSessionAccuracy (s : State) : JS.number :=
  match results s with
  | [] => 0%float
  | _ :: _ =>
      let correctDiv := count divisibilityCorrect (results s) in
      let correctRem := count remainderCorrect (results s) in
      let totalAnswers := Z.of_nat (List.length (results s)) * 2 in
      JS.Math_round
        ((JS.num (correctDiv + correctRem) / JS.num totalAnswers) * 100)%float
  end.

End DivisibilityStore.

(** ** The chain store (chainStore.ts) *)

Module ChainStore.

Import ChainEngine.

Inductive ChainGamePhase := setup | playing | review | complete.

(** [step_of] is the field [step]; [None] is [undefined]. *)
Record ChainStepResult := {
  step_of : option ChainStep;
  userAnswer : option Z;
  isCorrect : bool;
  timeMs : Z
}.

Record ChainHistoryEntry := {
  date : Z;
  entry_difficulty : ChainDifficulty;
  stats : ChainStats
}.

Record State := {
  difficulty : ChainDifficulty;
  phase : ChainGamePhase;
  chain : option GeneratedChain;
  currentStepIndex : Z;
  stepResults : list ChainStepResult;
  gameStartTime : option Z;
  stepStartTime : option Z;
  totalGamesPlayed : Z;
  totalChainsCompleted : Z;
  bestScore : JS.number;
  history : list ChainHistoryEntry
}.

Definition initialState : State :=
  {| difficulty := L2;
     phase := setup;
     chain := None;
     currentStepIndex := 0;
     stepResults := [];
     gameStartTime := None;
     stepStartTime := None;
     totalGamesPlayed := 0;
     totalChainsCompleted := 0;
     bestScore := 0%float;
     history := [] |}.

Definition setDifficulty (d : ChainDifficulty) (s : State) : State :=
  {| difficulty := d; phase := phase s; chain := chain s;
     currentStepIndex := currentStepIndex s; stepResults := stepResults s;
     gameStartTime := gameStartTime s; stepStartTime := stepStartTime s;
     totalGamesPlayed := totalGamesPlayed s;
     totalChainsCompleted := totalChainsCompleted s;
     bestScore := bestScore s; history := history s |}.

Definition startGame (rng : Rng) (now : Z) (s : State) : State :=
  let chain := fst (generateDefaultChain (difficulty s) rng) in
  {| difficulty := difficulty s; phase := playing; chain := Some chain;
     currentStepIndex := 0; stepResults := [];
     gameStartTime := Some now; stepStartTime := Some now;
     totalGamesPlayed := totalGamesPlayed s;
     totalChainsCompleted := totalChainsCompleted s;
     bestScore := bestScore s; history := history s |}.

Definition stepsLength (c : GeneratedChain) : Z :=
  Z.of_nat (List.length (steps c)).

(** The body shared by [submitAnswer] and [skipStep] once the current step
    has been read: record the result and move on, or go to review on the
    last step. *)
Definition record (c : GeneratedChain) (newResult : ChainStepResult) (now : Z)
    (s : State) : State :=
  let newResults := stepResults s ++ [newResult] in
  let isLastStep := stepsLength c - 1 <=? currentStepIndex s in
  {| difficulty := difficulty s;
     phase := if isLastStep then review else playing;
     chain := chain s;
     currentStepIndex :=
       if isLastStep then currentStepIndex s else currentStepIndex s + 1;
     stepResults := newResults;
     gameStartTime := gameStartTime s;
     stepStartTime := if isLastStep then None else Some now;
     totalGamesPlayed := totalGamesPlayed s;
     totalChainsCompleted := totalChainsCompleted s;
     bestScore := bestScore s; history := history s |}.

Definition elapsed (start : option Z) (now : Z) : Z :=
  match JS.truthy start with
  | Some t => now - t
  | None => 0
  end.

(** [None] is the TypeError of [currentStep.result] when
    [chain.steps[currentStepIndex]] is [undefined]. *)
Definition submitAnswer (answer : Z) (now : Z) (s : State) : option (bool * State) :=
  match chain s with
  | None => Some (false, s)
  | Some c =>
      if stepsLength c <=? currentStepIndex s then Some (false, s)
      else
        match JS.index (steps c) (currentStepIndex s) with
        | None => None
        | Some currentStep =>
            let isCorrect := answer =? result currentStep in
            let newResult :=
              {| step_of := Some currentStep; userAnswer := Some answer;
                 isCorrect := isCorrect;
                 timeMs := elapsed (stepStartTime s) now |} in
            Some (isCorrect, record c newResult now s)
        end
  end.

(** [skipStep] stores [chain.steps[currentStepIndex]] without reading any
    of its properties, so it cannot throw. *)
Definition skipStep (now : Z) (s : State) : State :=
  match chain s with
  | None => s
  | Some c =>
      if stepsLength c <=? currentStepIndex s then s
      else
        let currentStep := JS.index (steps c) (currentStepIndex s) in
        let newResult :=
          {| step_of := currentStep; userAnswer := None;
             isCorrect := false;
             timeMs := elapsed (stepStartTime s) now |} in
        record c newResult now s
  end.

Definition nextStep (now : Z) (s : State) : State :=
  match chain s with
  | None => s
  | Some c =>
      if currentStepIndex s <? stepsLength c - 1 then
        {| difficulty := difficulty s; phase := phase s; chain := chain s;
           currentStepIndex := currentStepIndex s + 1;
           stepResults := stepResults s;
           gameStartTime := gameStartTime s; stepStartTime := Some now;
           totalGamesPlayed := totalGamesPlayed s;
           totalChainsCompleted := totalChainsCompleted s;
           bestScore := bestScore s; history := history s |}
      else s
  end.

Definition setPhase (p : ChainGamePhase) (s : State) : State :=
  {| difficulty := difficulty s; phase := p; chain := chain s;
     currentStepIndex := currentStepIndex s; stepResults := stepResults s;
     gameStartTime := gameStartTime s; stepStartTime := stepStartTime s;
     totalGamesPlayed := totalGamesPlayed s;
     totalChainsCompleted := totalChainsCompleted s;
     bestScore := bestScore s; history := history s |}.

Definition reviewChain (s : State) : State := setPhase review s.

(** The statistics [endGame] and [getSessionStats] compute for a chain. *)
Definition sessionStats (c : GeneratedChain) (now : Z) (s : State) : ChainStats :=
  let totalTimeMs := elapsed (gameStartTime s) now in
  let correctSteps := List.length (filter isCorrect (stepResults s)) in
  let completed :=
    Nat.eqb (List.length (stepResults s)) (List.length (steps c)) in
  calculateChainStats
    (JS.num (Z.of_nat (List.length (stepResults s))))
    (JS.num (Z.of_nat correctSteps))
    (JS.num totalTimeMs)
    completed.

Definition endGame (now : Z) (s : State) : State :=
  match chain s, stepResults s with
  | None, _ | _, [] => setPhase setup s
  | Some c, _ :: _ =>
      let stats := sessionStats c now s in
      let newHistoryEntry :=
        {| date := now; entry_difficulty := difficulty s; stats := stats |} in
      {| difficulty := difficulty s; phase := complete; chain := chain s;
         currentStepIndex := currentStepIndex s; stepResults := stepResults s;
         gameStartTime := gameStartTime s; stepStartTime := stepStartTime s;
         totalGamesPlayed := totalGamesPlayed s + 1;
         totalChainsCompleted :=
           if completed stats then totalChainsCompleted s + 1
           else totalChainsCompleted s;
         bestScore := JS.Math_max (bestScore s) (finalScore stats);
         history := JS.slice_last 20 (history s ++ [newHistoryEntry]) |}
  end.

Definition resetGame (s : State) : State :=
  {| difficulty := difficulty s; phase := setup; chain := None;
     currentStepIndex := 0; stepResults := [];
     gameStartTime := None; stepStartTime := None;
     totalGamesPlayed := totalGamesPlayed s;
     totalChainsCompleted := totalChainsCompleted s;
     bestScore := bestScore s; history := history s |}.

(** The guard returns [null]; past it the array is read at the index,
    which gives [undefined] outside the array. *)
Definition getCurrentStep (s : State) : JS.Nullable ChainStep :=
  match chain s with
  | None => JS.JSnull
  | Some c =>
      if stepsLength c <=? currentStepIndex s then JS.JSnull
      else JS.read (steps c) (currentStepIndex s)
  end.

Definition getSessionStats (now : Z) (s : State) : option ChainStats :=
  match chain s, stepResults s with
  | None, _ | _, [] => None
  | Some c, _ :: _ => Some (sessionStats c now s)
  end.

Inductive Action :=
| SetDifficulty (d : ChainDifficulty)
| StartGame (rng : Rng) (now : Z)
| SubmitAnswer (answer : Z) (now : Z)
| SkipStep (now : Z)
| NextStep (now : Z)
| ReviewChain
| EndGame (now : Z)
| ResetGame.

Definition step (a : Action) (s : State) : option State :=
  match a with
  | SetDifficulty d => Some (setDifficulty d s)
  | StartGame rng now => Some (startGame rng now s)
  | SubmitAnswer answer now => option_map snd (submitAnswer answer now s)
  | SkipStep now => Some (skipStep now s)
  | NextStep now => Some (nextStep now s)
  | ReviewChain => Some (reviewChain s)
  | EndGame now => Some (endGame now s)
  | ResetGame => Some (resetGame s)
  end.

End ChainStore.

(** ** Specification predicates *)

(** The invariant of a divisibility problem (section 3 of the spec). *)
Definition divisibilityInvariant (p : DivisibilityEngine.DivisibilityProblem) : Prop :=
  DivisibilityEngine.dividend p
    = DivisibilityEngine.divisor p * DivisibilityEngine.quotient p
      + DivisibilityEngine.remainder p
  /\ 0 <= DivisibilityEngine.remainder p < DivisibilityEngine.divisor p
  /\ DivisibilityEngine.negativeRemainder p
     = (if 0 <? DivisibilityEngine.remainder p
        then DivisibilityEngine.remainder p - DivisibilityEngine.divisor p
        else 0)
  /\ (DivisibilityEngine.isDivisible p = true
      <-> DivisibilityEngine.remainder p = 0).

(** The problem of the end-to-end scenario: 87 divided by 5. *)
Definition problem_87_5 : DivisibilityEngine.DivisibilityProblem :=
  {| DivisibilityEngine.dividend := 87;
     DivisibilityEngine.divisor := 5;
     DivisibilityEngine.quotient := 17;
     DivisibilityEngine.remainder := 2;
     DivisibilityEngine.negativeRemainder := -3;
     DivisibilityEngine.isDivisible := false;
     DivisibilityEngine.display := DivisibilityEngine.displayOf 87 5;
     DivisibilityEngine.difficulty := L2 |}.

(** The integers [lo, lo + 1, ..., lo + n - 1]. *)
Definition Zrange (lo : Z) (n : nat) : list Z :=
  map (fun i => lo + Z.of_nat i) (seq 0 n).






(** A step adds its addend to the value it starts from. *)
Definition stepSound (st : ChainEngine.ChainStep) : Prop :=
  ChainEngine.result st = ChainEngine.previousResult st + ChainEngine.addend st.

(** Every step is sound and starts from the value before it, the first
    one from [prev]. *)
Fixpoint linkedFrom (prev : Z) (steps : list ChainEngine.ChainStep) : Prop :=
  match steps with
  | [] => True
  | st :: rest =>
      ChainEngine.previousResult st = prev /\ stepSound st
      /\ linkedFrom (ChainEngine.result st) rest
  end.

(** The result of the last step, [start] when there is none. *)
Definition lastResult (start : Z) (steps : list ChainEngine.ChainStep) : Z :=
  fold_left (fun _ st => ChainEngine.result st) steps start.

(** Draws under which the ratio engine, at level 5, samples 100/120 against
    299/350 (2.51 percent apart, outside the band) in every iteration:
    [Math.random()] returns 2^-10 twice, then 1 - 2^-10 three times. *)
Definition tie_rng : Rng :=
  fun n => match Nat.modulo n 5 with
           | O | S O => 2 ^ 43
           | _ => 2 ^ 53 - 2 ^ 43
           end.


(** The invariant of the chain store: with a chain present, the current
    index points at one of its steps. *)
Definition chainInv (s : ChainStore.State) : Prop :=
  match ChainStore.chain s with
  | Some c => 0 <= ChainStore.currentStepIndex s < ChainStore.stepsLength c
  | None => True
  end.

(** The chain store right after [startGame], on a ten-step chain whose
    results are 100, 150, 170, 200, 240, 365, 415, 490, 590, 715. *)
Definition midChain : ChainStore.State :=
  ChainStore.startGame (fun n => Z.of_nat n * 2 ^ 51) 1000 ChainStore.initialState.

(** The [n]-digit numbers. *)
Definition hasDigits (n : Z) (z : Z) : Prop := 10 ^ (n - 1) <= z <= 10 ^ n - 1.

(** The statistics of the simple store are consistent with one another. *)
Definition statsInv (st : GameStore.GameStats) : Prop :=
  0 <= GameStore.currentStreak st <= GameStore.bestStreak st
  /\ GameStore.currentStreak st <= GameStore.correctAnswers st
  /\ GameStore.correctAnswers st <= GameStore.totalQuestions st
  /\ GameStore.totalQuestions st
     = Z.of_nat (List.length (GameStore.sessionTimes st)).

(** The persisted totals of the divisibility store are consistent. *)
Definition divisibilityTotalsInv (s : DivisibilityStore.State) : Prop :=
  0 <= DivisibilityStore.totalCorrectDivisibility s
       <= DivisibilityStore.totalProblemsAttempted s
  /\ 0 <= DivisibilityStore.totalCorrectRemainder s
          <= DivisibilityStore.totalProblemsAttempted s
  /\ 0 <= DivisibilityStore.totalGamesPlayed s.

(** The persisted totals of the chain store are consistent, and its
    history holds at most twenty games. *)
Definition chainTotalsInv (s : ChainStore.State) : Prop :=
  0 <= ChainStore.totalChainsCompleted s <= ChainStore.totalGamesPlayed s
  /\ (List.length (ChainStore.history s) <= 20)%nat
  /\ Z.of_nat (List.length (ChainStore.history s)) <= ChainStore.totalGamesPlayed s.

(** A step's operands lie in the ranges of its position: the starting
    numbers for step 1, the addend band of its number afterwards. *)
Definition stepWithin (d : ChainEngine.ChainDifficulty) (st : ChainEngine.ChainStep)
  : Prop :=
  if ChainEngine.stepNumber st =? 1
  then
    let range := ChainEngine.startingNumbers (ChainEngine.difficultyRanges d) in
    min range <= ChainEngine.previousResult st <= max range
    /\ min range <= ChainEngine.addend st <= max range
  else
    let range := ChainEngine.getAddendRange (ChainEngine.stepNumber st) d in
    min range <= ChainEngine.addend st <= max range.

(** The steps are numbered from 1 and lie in the ranges of their
    positions. *)
Definition numbered (d : ChainEngine.ChainDifficulty)
    (l : list ChainEngine.ChainStep) : Prop :=
  forall i st, nth_error l i = Some st ->
    ChainEngine.stepNumber st = Z.of_nat i + 1 /\ stepWithin d st.

(** A player's move on a step: an answer, or [None] for a skip. *)
Definition move (m : option Z) (now : Z) (s : ChainStore.State)
  : option ChainStore.State :=
  match m with
  | Some answer => option_map snd (ChainStore.submitAnswer answer now s)
  | None => Some (ChainStore.skipStep now s)
  end.

(** Moves made one after the other; [None] when a submission throws. *)
Fixpoint playAll (moves : list (option Z)) (now : Z) (s : ChainStore.State)
  : option ChainStore.State :=
  match moves with
  | [] => Some s
  | m :: rest =>
      match move m now s with
      | Some s' => playAll rest now s'
      | None => None
      end
  end.


(** The simple store after a sequence of actions. *)
Definition runGame (actions : list GameStore.Action) (s : GameStore.GameState)
  : GameStore.GameState :=
  fold_left (fun s a => GameStore.step a s) actions s.


(** What a recorded divisibility result says about the problem and the
    two answers. *)
Definition verdict (r : DivisibilityStore.ProblemResult)
  : DivisibilityEngine.DivisibilityProblem * option bool * option Z * bool * bool :=
  (DivisibilityStore.problem r, DivisibilityStore.res_userDivisibilityAnswer r,
   DivisibilityStore.userRemainderAnswer r,
   DivisibilityStore.divisibilityCorrect r, DivisibilityStore.remainderCorrect r).

(* ================================================================== *)
(** * Part II: properties                                             *)
(* ================================================================== *)

(** ** The random source *)

Lemma next_bounds (r : Rng) : 0 <= fst (next r) < 2 ^ 53.
Proof. unfold next; simpl. apply Z.mod_pos_bound. lia. Qed.

(** A draw lands in the requested range whenever the range is not empty. *)
Lemma randomInt_range (lo hi : Z) (r : Rng) :
  lo <= hi -> lo <= fst (randomInt lo hi r) <= hi.
Proof.
  intros Hle. unfold randomInt, bind, ret.
  pose proof (next_bounds r) as Hk.
  destruct (next r) as [k r']; simpl in *.
  assert (0 <= k * (hi - lo + 1) / 2 ^ 53 < hi - lo + 1).
  { split.
    - apply Z.div_pos; nia.
    - apply Z.div_lt_upper_bound; nia. }
  lia.
Qed.

(** With an empty range of width one, the draw is the lower bound. *)
Lemma randomInt_point (lo : Z) (r : Rng) : fst (randomInt lo lo r) = lo.
Proof. pose proof (randomInt_range lo lo r). lia. Qed.

(** ** Integer division in binary64 *)

Section IntegerDivision.

Lemma Zrange_In (lo : Z) (n : nat) (z : Z) :
  lo <= z < lo + Z.of_nat n -> In z (Zrange lo n).
Proof.
  intros H. unfold Zrange. apply in_map_iff.
  exists (Z.to_nat (z - lo)). split; [lia|].
  apply in_seq. lia.
Qed.

(** The divisibility engine divides dividends up to 999 + 49 by divisors
    from 2 to 50.  On that whole range [Math.floor(a / b)] and
    [Math.ceil(a / b)], computed in binary64, are the integer quotients the
    embedding uses. *)
Lemma floorDiv_ceilDiv_binary64 (a b : Z) :
  0 <= a <= 1100 -> 2 <= b <= 50 ->
  JS.Math_floor (JS.num a / JS.num b)%float
    = JS.num (DivisibilityEngine.floorDiv a b)
  /\ JS.Math_ceil (JS.num a / JS.num b)%float
     = JS.num (DivisibilityEngine.ceilDiv a b).
Proof.
  intros Ha Hb.
  assert (Hall :
    forallb (fun b =>
      forallb (fun a =>
        Leibniz.eqb (JS.Math_floor (JS.num a / JS.num b)%float)
                    (JS.num (DivisibilityEngine.floorDiv a b))
        && Leibniz.eqb (JS.Math_ceil (JS.num a / JS.num b)%float)
                       (JS.num (DivisibilityEngine.ceilDiv a b)))
        (Zrange 0 1101))
      (Zrange 2 49) = true) by (vm_compute; reflexivity).
  rewrite forallb_forall in Hall.
  specialize (Hall b (Zrange_In 2 49 b ltac:(lia))).
  rewrite forallb_forall in Hall.
  specialize (Hall a (Zrange_In 0 1101 a ltac:(lia))).
  apply andb_true_iff in Hall. destruct Hall as [H1 H2].
  apply FloatAxioms.Leibniz.eqb_spec in H1, H2. split; assumption.
Qed.

End IntegerDivision.

(** ** The order of binary64 numbers *)

Section FloatOrder.

Local Open Scope float_scope.

Lemma SFcompare_antisym (x y : spec_float) :
  SFcompare y x = option_map CompOpp (SFcompare x y).
Proof.
  destruct x as [sx|sx| |sx mx ex], y as [sy|sy| |sy my ey]; cbn;
    try destruct sx; try destruct sy; cbn; try reflexivity;
    rewrite (Z.compare_antisym ex ey); destruct (ex ?= ey)%Z; cbn;
    try reflexivity;
    pose proof (Pos.compare_cont_antisym mx my Eq) as H; cbn in H;
    rewrite <- H, ?CompOpp_involutive; reflexivity.
Qed.

Lemma SFcompare_None (x y : spec_float) :
  SFcompare x y = None -> x = S754_nan \/ y = S754_nan.
Proof.
  destruct x as [sx|sx| |sx mx ex], y as [sy|sy| |sy my ey]; cbn; auto;
    discriminate.
Qed.

Lemma SFcompare_refl (x : spec_float) :
  x <> S754_nan -> SFcompare x x = Some Eq.
Proof.
  destruct x as [sx|sx| |sx mx ex]; cbn; try congruence;
    destruct sx; try reflexivity;
    rewrite Z.compare_refl, Pos.compare_cont_refl; reflexivity.
Qed.

Lemma is_nan_spec (x : float) : is_nan x = false <-> Prim2SF x <> S754_nan.
Proof.
  unfold is_nan. rewrite negb_false_iff, eqb_spec. unfold SFeqb. split.
  - intros H E. rewrite E in H. discriminate.
  - intros H. rewrite SFcompare_refl by exact H. reflexivity.
Qed.

Lemma float_eqb_sym (x y : float) : (x =? y) = (y =? x).
Proof.
  rewrite !eqb_spec. unfold SFeqb.
  rewrite (SFcompare_antisym (Prim2SF x) (Prim2SF y)).
  destruct (SFcompare (Prim2SF x) (Prim2SF y)) as [[]|]; reflexivity.
Qed.

Lemma float_ltb_asym (x y : float) : (x <? y) = true -> (y <? x) = false.
Proof.
  rewrite !ltb_spec. unfold SFltb.
  rewrite (SFcompare_antisym (Prim2SF x) (Prim2SF y)).
  destruct (SFcompare (Prim2SF x) (Prim2SF y)) as [[]|]; cbn; congruence.
Qed.



(** Two numbers are comparable: when [y < x] fails, [x <= y] holds. *)
Lemma float_not_ltb_leb (x y : float) :
  is_nan x = false -> is_nan y = false -> (y <? x) = false -> (x <=? y) = true.
Proof.
  intros Hx Hy. apply is_nan_spec in Hx, Hy.
  rewrite ltb_spec, leb_spec. unfold SFltb, SFleb.
  rewrite (SFcompare_antisym (Prim2SF x) (Prim2SF y)).
  destruct (SFcompare (Prim2SF x) (Prim2SF y)) as [[]|] eqn:E; cbn;
    try congruence.
  destruct (SFcompare_None _ _ E); contradiction.
Qed.


End FloatOrder.

(** ** Divisibility engine *)

Section DivisibilityProperties.

Import DivisibilityEngine.

Lemma divisorRange_ok (d : DivisibilityDifficulty) :
  2 <= min (divisorRange (difficultyRanges d))
  /\ min (divisorRange (difficultyRanges d)) <= max (divisorRange (difficultyRanges d)).
Proof. destruct d; simpl; lia. Qed.

Lemma dividendRange_ok (d : DivisibilityDifficulty) :
  10 <= min (dividendRange (difficultyRanges d))
  /\ min (dividendRange (difficultyRanges d)) <= max (dividendRange (difficultyRanges d)).
Proof. destruct d; simpl; lia. Qed.

(** The exact branch returns a multiple of the divisor with remainder 0. *)
Lemma exact_invariant (d : DivisibilityDifficulty) (r : Rng) :
  divisibilityInvariant (fst (generateExactDivisibilityProblem d r)).
Proof.
  unfold generateExactDivisibilityProblem, bind, ret.
  pose proof (divisorRange_ok d) as [H2 Hle].
  pose proof (randomInt_range _ _ r Hle) as Hdiv.
  destruct (randomInt _ _ r) as [dv r1]; simpl in Hdiv.
  destruct (randomInt _ _ r1) as [q r2]; simpl.
  unfold divisibilityInvariant; simpl.
  repeat split; try lia.
Qed.

(** Every dividend the loop samples lies in the dividend range, the loop
    runs at most [50 - attempts] times, and it leaves by its own guard. *)
Lemma sampleDividend_exit (budget : nat) :
  forall (attempts : Z) (range : Range) (divisor : Z) (r : Rng),
    attempts + Z.of_nat budget = 49 ->
    min range <= max range ->
    let '(dividend, n, _) := sampleDividend budget attempts range divisor r in
    min range <= dividend <= max range
    /\ attempts < n <= 50
    /\ (Z.rem dividend divisor =? 0) && (n <? 50) = false.
Proof.
  induction budget as [|b IH]; intros attempts range divisor r Hb Hle;
    cbn [sampleDividend]; unfold bind, ret;
    pose proof (randomInt_range _ _ r Hle) as Hd;
    destruct (randomInt (min range) (max range) r) as [dv r1]; cbn [fst] in Hd.
  - repeat split; lia.
  - destruct ((Z.rem dv divisor =? 0) && (attempts + 1 <? 50)) eqn:G.
    + specialize (IH (attempts + 1) range divisor r1).
      destruct (sampleDividend b (attempts + 1) range divisor r1) as [[dv' n] r2].
      destruct IH as (? & ? & ?); [lia | assumption |].
      repeat split; try lia; assumption.
    + repeat split; try lia; assumption.
Qed.

(** The remainder branch, forced adjustment included, returns a problem
    that is not divisible and carries the Euclidean quotient and remainder. *)
Lemma remainder_invariant (d : DivisibilityDifficulty) (r : Rng) :
  divisibilityInvariant (fst (generateRemainderProblem d r))
  /\ remainder (fst (generateRemainderProblem d r)) <> 0.
Proof.
  unfold generateRemainderProblem, bind, ret.
  pose proof (divisorRange_ok d) as [H2 Hle].
  pose proof (dividendRange_ok d) as [H10 Hle'].
  pose proof (randomInt_range _ _ r Hle) as Hdiv.
  destruct (randomInt _ _ r) as [dv r1]; simpl in Hdiv.
  pose proof (sampleDividend_exit 49 0 (dividendRange (difficultyRanges d)) dv r1
                eq_refl Hle') as Hs.
  destruct (sampleDividend 49 0 _ dv r1) as [[n a] r2].
  destruct Hs as (Hn & _ & _).
  assert (Hfinal :
    forall m, 0 <= m -> Z.rem m dv <> 0 ->
      m = dv * floorDiv m dv + Z.rem m dv /\ 0 < Z.rem m dv < dv).
  { intros m Hm Hrem. unfold floorDiv.
    rewrite Z.rem_mod_nonneg in * by lia.
    pose proof (Z.mod_pos_bound m dv ltac:(lia)).
    pose proof (Z.div_mod m dv ltac:(lia)). lia. }
  destruct (Z.rem n dv =? 0) eqn:E.
  - apply Z.eqb_eq in E.
    assert (Hoff : 1 <= dv - 1) by lia.
    pose proof (randomInt_range 1 (dv - 1) r2 Hoff) as Ho.
    destruct (randomInt 1 (dv - 1) r2) as [off r3]; simpl in Ho. simpl.
    assert (Hrem : Z.rem (n + off) dv <> 0).
    { rewrite Z.rem_mod_nonneg in * by lia.
      apply Z.mod_divide in E; [|lia]. destruct E as [k ->].
      rewrite Z.add_comm, Z.mod_add by lia.
      rewrite Z.mod_small by lia. lia. }
    destruct (Hfinal (n + off) ltac:(lia) Hrem) as [Heq Hr].
    unfold divisibilityInvariant; simpl.
    replace (0 <? Z.rem (n + off) dv) with true by (symmetry; apply Z.ltb_lt; lia).
    repeat split; try lia; try assumption; intros; try discriminate; lia.
  - apply Z.eqb_neq in E. simpl.
    destruct (Hfinal n ltac:(lia) E) as [Heq Hr].
    unfold divisibilityInvariant; simpl.
    replace (0 <? Z.rem n dv) with true by (symmetry; apply Z.ltb_lt; lia).
    repeat split; try lia; try assumption; intros; try discriminate; lia.
Qed.

(** C1. Every problem [generateDivisibilityProblem] returns, from the exact
    branch, the remainder branch or the forced adjustment after fifty
    attempts, satisfies [dividend = divisor * quotient + remainder],
    [0 <= remainder < divisor], [negativeRemainder = remainder - divisor]
    when the remainder is positive and [0] otherwise, and is marked
    divisible exactly when the remainder is [0]. *)
Theorem generateDivisibilityProblem_invariant
    (config : DivisibilityConfig) (r : Rng) :
  divisibilityInvariant (fst (generateDivisibilityProblem config r)).
Proof.
  unfold generateDivisibilityProblem, bind.
  destruct (includeExactDivisibility config).
  - unfold Math_random, bind, ret. destruct (next r) as [k r1].
    destruct (_ <? _)%float.
    + apply exact_invariant.
    + apply remainder_invariant.
  - unfold ret. apply remainder_invariant.
Qed.

(** The forced adjustment is taken: with every draw [0] at level 2 the
    divisor is 2 and all fifty dividends are 20; the offset makes it 21. *)
Example forced_adjustment_run :
  let p := fst (generateDivisibilityProblem
                  {| cfg_difficulty := L2; remainderType := both;
                     includeExactDivisibility := false |} (fun _ => 0)) in
  (dividend p, divisor p, quotient p, remainder p, negativeRemainder p,
   isDivisible p) = (21, 2, 10, 1, -1, false).
Proof. vm_compute. reflexivity. Qed.

(** C7. [validateRemainderAnswer] accepts exactly the canonical remainder,
    the negative remainder when negatives are accepted, and [0] for a
    divisible problem; for 87 / 5 with negatives accepted, [-3] is
    accepted. *)
Theorem validateRemainderAnswer_spec :
  (forall (p : DivisibilityProblem) (userRemainder : Z) (acceptNegative : bool),
     validateRemainderAnswer p userRemainder acceptNegative = true
     <-> (userRemainder = remainder p
          \/ (acceptNegative = true /\ userRemainder = negativeRemainder p)
          \/ (isDivisible p = true /\ userRemainder = 0)))
  /\ validateRemainderAnswer problem_87_5 (-3) true = true
  /\ validateRemainderAnswer problem_87_5 2 true = true
  /\ validateRemainderAnswer problem_87_5 (-3) false = false
  /\ validateDivisibilityAnswer problem_87_5 false = true.
Proof.
  split; [|repeat split].
  intros p u acc. unfold validateRemainderAnswer.
  destruct (isDivisible p); destruct acc; simpl;
    destruct (u =? 0) eqn:E0; destruct (u =? remainder p) eqn:E1;
    destruct (u =? negativeRemainder p) eqn:E2;
    rewrite ?Z.eqb_eq, ?Z.eqb_neq in *;
    split; intros H; try reflexivity; try discriminate; try tauto;
    try (right; left; tauto); try (right; right; tauto); try (left; tauto);
    destruct H as [H | [[H1 H] | [H1 H]]]; try discriminate; try contradiction;
    congruence.
Qed.

End DivisibilityProperties.

(** ** Percentage engine *)

Section PercentageProperties.

Import JS PercentageEngine.
Local Open Scope float_scope.

(** The verdicts on the answers around 65.43 at two decimals.  The
    subtraction is exact here, and 65.435 - 65.43 comes out just below the
    double 0.005 while 65.43 - 65.425 comes out just above it. *)
Example isPercentageCorrect_samples :
  isPercentageCorrect 65.43 65.43 Two = true
  /\ isPercentageCorrect 65.428 65.43 Two = true
  /\ isPercentageCorrect 65.435 65.43 Two = true
  /\ isPercentageCorrect 65.425 65.43 Two = false
  /\ isPercentageCorrect 65.44 65.43 Two = false
  /\ isPercentageCorrect 65.50 65.43 Two = false
  /\ isPercentageCorrect 65.44 65.43 One = true.
Proof. vm_compute. repeat split. Qed.

(** The percentage scenario of the spec: 53/81 at two decimals is 65.43,
    65.428 is accepted, and around the bound 65.43 + 0.005 is accepted
    while 65.43 + 0.0051 is not. *)
Example percentage_scenario :
  calculatePercentage 53 81 Two = 65.43
  /\ isPercentageCorrect 65.428 (calculatePercentage 53 81 Two) Two = true
  /\ isPercentageCorrect (65.43 + 0.005) 65.43 Two = true
  /\ isPercentageCorrect (65.43 + 0.0051) 65.43 Two = false.
Proof. vm_compute. repeat split. Qed.

(** C2, as stated, fails: 65.44 is 0.01 away from 65.43 and is rejected. *)
Lemma isPercentageCorrect_rejects_65_44 :
  isPercentageCorrect 65.44 65.43 Two = false
  /\ (0.005 <? Math_abs (65.44 - 65.43)) = true.
Proof. vm_compute. split; reflexivity. Qed.

(** C2, amended. [isPercentageCorrect] answers whether the binary64 value
    of [|userAnswer - correctAnswer|] is at most the tolerance, 0.05 at one
    decimal and 0.005 at two, the bound included; for 65.43 at two decimals
    it accepts 65.435 and rejects 65.44 and 65.50. *)
Theorem isPercentageCorrect_spec :
  (forall (userAnswer correctAnswer : number) (dp : DecimalPlaces),
     isPercentageCorrect userAnswer correctAnswer dp = true
     <-> (Math_abs (userAnswer - correctAnswer)
          <=? (match dp with One => 0.05 | Two => 0.005 end)) = true)
  /\ (forall (correctAnswer : number) (dp : DecimalPlaces),
        isFinite correctAnswer = true ->
        isPercentageCorrect correctAnswer correctAnswer dp = true)
  /\ isPercentageCorrect (65.43 + 0.005) 65.43 Two = true
  /\ isPercentageCorrect 65.435 65.43 Two = true
  /\ isPercentageCorrect 65.44 65.43 Two = false
  /\ isPercentageCorrect 65.50 65.43 Two = false.
Proof.
  split; [|split]; [| |vm_compute; repeat split].
  - intros u c dp. unfold isPercentageCorrect, tolerance.
    destruct dp; reflexivity.
  - intros c dp Hfin. unfold isPercentageCorrect, Math_abs.
    rewrite leb_spec, abs_spec, sub_spec.
    unfold isFinite in Hfin. apply negb_true_iff, orb_false_iff in Hfin.
    destruct Hfin as [Hnan Hinf].
    unfold is_nan in Hnan. unfold is_infinity in Hinf.
    rewrite negb_false_iff, eqb_spec in Hnan.
    rewrite eqb_spec, abs_spec in Hinf.
    destruct (Prim2SF c) as [s | s | | s m e] eqn:Ec; try discriminate.
    + destruct s, dp; vm_compute; reflexivity.
    + unfold SF64sub, SFsub. rewrite Z.min_id. unfold shl_align.
      rewrite Z.sub_diag. cbn [fst]. rewrite ?Z.sub_diag.
      destruct dp; vm_compute; reflexivity.
Qed.



(** A sample the percentage loop returns has passed its filter. *)
Lemma sampleLoop_accepted (fuel : nat) :
  forall (d : PercentageDifficulty) (r r' : Rng) (n dn pc : number),
    sampleLoop fuel d r = (Some (n, dn, pc), r') -> rejected d pc = false.
Proof.
  induction fuel as [|k IH]; intros d r r' n dn pc; cbn [sampleLoop].
  - unfold ret. discriminate.
  - unfold bind at 1. destruct (sample d r) as [[[n0 dn0] pc0] r1].
    destruct (rejected d pc0) eqn:E.
    + apply IH.
    + unfold ret. intros H. injection H as <- <- <- <-. exact E.
Qed.

(** The percentage loop ends at the first accepted sample: fuel beyond
    that point changes nothing. *)
Lemma sampleLoop_more_fuel (fuel : nat) :
  forall (d : PercentageDifficulty) (r : Rng) (x : number * number * number) (r' : Rng),
    sampleLoop fuel d r = (Some x, r') ->
    forall extra, sampleLoop (fuel + extra) d r = (Some x, r').
Proof.
  induction fuel as [|k IH]; intros d r x r' H extra; cbn [sampleLoop] in H.
  - discriminate.
  - cbn [Nat.add sampleLoop]. unfold bind at 1 in H. unfold bind at 1.
    destruct (sample d r) as [[[n0 dn0] pc0] r1].
    destruct (rejected d pc0); [apply IH|]; exact H.
Qed.

Lemma generatePercentageProblem_accepted
    (fuel : nat) (d : PercentageDifficulty) (r : Rng) (p : PercentageProblem) :
  fst (generatePercentageProblem fuel d r) = Some p ->
  rejected d (answer p) = false
  /\ answer p = calculatePercentage (numerator p) (denominator p) (decimalPlaces p).
Proof.
  unfold generatePercentageProblem, bind at 1.
  destruct (sampleLoop fuel d r) as [[[[n dn] pc]|] r1] eqn:E;
    unfold ret; cbn [fst]; [|discriminate].
  intros H. injection H as <-. cbn [answer numerator denominator decimalPlaces].
  split; [exact (sampleLoop_accepted _ _ _ _ _ _ _ E)|].
  clear -E. revert r E.
  induction fuel as [|k IH]; intros r; cbn [sampleLoop]; [discriminate|].
  unfold bind at 1. destruct (sample d r) as [[[n0 dn0] pc0] r2] eqn:Es.
  destruct (rejected d pc0); [apply IH|].
  unfold ret. intros H. injection H as <- <- <- <-.
  unfold sample, bind, ret in Es.
  destruct (randomInRange _ _ r) as [dn1 r3].
  destruct (allowOver100 (DIFFICULTY_CONFIG d));
    destruct (randomInRange _ _ r3) as [n1 r4];
    injection Es as <- <- <- <-; reflexivity.
Qed.

End PercentageProperties.

(** ** Addition chain engine *)

Section ChainProperties.

Import ChainEngine.

Lemma lastResult_snoc (p : Z) (l : list ChainStep) (x : ChainStep) :
  lastResult p (l ++ [x]) = result x.
Proof. unfold lastResult. rewrite fold_left_app. reflexivity. Qed.

Lemma linkedFrom_snoc (l : list ChainStep) :
  forall (p : Z) (x : ChainStep),
    linkedFrom p l -> previousResult x = lastResult p l -> stepSound x ->
    linkedFrom p (l ++ [x]).
Proof.
  induction l as [|st rest IH]; intros p x Hl Hprev Hx; simpl in *.
  - auto.
  - destruct Hl as (Hp & Hs & Hrest). repeat split; auto.
Qed.

(** Within a linked list every step is sound and every step starts from
    the result of the one before it. *)
Lemma linkedFrom_nth (l : list ChainStep) :
  forall (p : Z), linkedFrom p l ->
    (forall i st, nth_error l i = Some st -> stepSound st)
    /\ (forall i a b, nth_error l i = Some a -> nth_error l (S i) = Some b ->
          previousResult b = result a).
Proof.
  induction l as [|x rest IH]; intros p Hl; simpl in Hl.
  - split; intros [|i]; discriminate.
  - destruct Hl as (Hp & Hs & Hrest). destruct (IH _ Hrest) as [IH1 IH2].
    split.
    + intros [|i] st H; simpl in H.
      * injection H as <-. exact Hs.
      * eauto.
    + intros [|i] a b Ha Hb; simpl in Ha, Hb.
      * injection Ha as <-. destruct rest as [|y rest']; [discriminate|].
        injection Hb as <-. simpl in Hrest. tauto.
      * eauto.
Qed.

(** The [for] loop appends exactly [count] steps and keeps the chain
    linked. *)
Lemma remainingSteps_spec (count : nat) :
  forall (i : Z) (d : ChainDifficulty) (cur : Z) (l : list ChainStep)
         (r : Rng) (p : Z),
    linkedFrom p l -> lastResult p l = cur ->
    let '(l', cur', _) := remainingSteps count i d cur l r in
    linkedFrom p l' /\ lastResult p l' = cur'
    /\ List.length l' = (List.length l + count)%nat.
Proof.
  induction count as [|n IH]; intros i d cur l r p Hl Hcur; cbn [remainingSteps].
  - unfold ret. repeat split; auto.
  - unfold bind at 1.
    destruct (randomInt _ _ r) as [a r1].
    match goal with |- context [remainingSteps n ?i' d ?c' ?l' r1] =>
      specialize (IH i' d c' l' r1 p) end.
    destruct (remainingSteps n _ d _ _ r1) as [[l' cur'] r2].
    destruct IH as (H1 & H2 & H3).
    + apply linkedFrom_snoc; auto. unfold stepSound; simpl. lia.
    + apply lastResult_snoc.
    + repeat split; auto. rewrite H3, length_app. simpl. lia.
Qed.

(** What [generateChain] returns: a linked chain of
    [max 1 totalLength] steps. *)
Lemma generateChain_shape (config : ChainConfig) (r : Rng) :
  let c := fst (generateChain config r) in
  (exists first, linkedFrom first (steps c))
  /\ Z.of_nat (List.length (steps c)) = Z.max 1 (totalLength c)
  /\ totalLength c = fst (randomInt (minLength config) (maxLength config) r)
  /\ lastResult 0 (steps c) = finalResult c.
Proof.
  unfold generateChain, generateStartingPair, bind, ret.
  destruct (randomInt (minLength config) (maxLength config) r) as [len r1].
  destruct (randomInt _ _ r1) as [first r2].
  destruct (randomInt _ _ r2) as [second r3].
  match goal with |- context [remainingSteps ?n ?i ?d ?c ?l r3] =>
    pose proof (remainingSteps_spec n i d c l r3 first) as H end.
  destruct (remainingSteps _ _ _ _ _ r3) as [[l' cur'] r4].
  destruct H as (H1 & H2 & H3).
  - simpl. unfold stepSound; simpl. auto.
  - reflexivity.
  - simpl. repeat split.
    + eauto.
    + rewrite H3. simpl. lia.
    + destruct l' as [|x rest]; [discriminate|].
      rewrite <- H2. unfold lastResult. simpl. reflexivity.
Qed.

(** C3, as stated, fails: asked for a length in [0, 0], [generateChain]
    still returns the first step. *)
Lemma generateChain_length_outside_range :
  let config := {| minLength := 0; maxLength := 0; cfg_difficulty := L1 |} in
  let c := fst (generateChain config (fun _ => 0)) in
  Z.of_nat (List.length (steps c)) = 1
  /\ ~ (minLength config <= Z.of_nat (List.length (steps c)) <= maxLength config).
Proof. vm_compute. split; [reflexivity | intros [_ H]; apply H; reflexivity]. Qed.

(** C3, amended. For [1 <= minLength <= maxLength], every chain
    [generateChain] returns has between [minLength] and [maxLength] steps;
    and for every configuration, with no condition on the lengths, each
    step satisfies [result = previousResult + addend] and each step after
    the first starts from the result of the step before it. *)
Theorem generateChain_spec (config : ChainConfig) (r : Rng) :
  let c := fst (generateChain config r) in
  (1 <= minLength config <= maxLength config ->
   minLength config <= Z.of_nat (List.length (steps c)) <= maxLength config)
  /\ (forall i st, nth_error (steps c) i = Some st ->
        result st = previousResult st + addend st)
  /\ (forall i a b, nth_error (steps c) i = Some a ->
        nth_error (steps c) (S i) = Some b ->
        previousResult b = result a).
Proof.
  intros c.
  destruct (generateChain_shape config r) as ((first & Hl) & Hn & Ht & _).
  fold c in Hl, Hn, Ht.
  destruct (linkedFrom_nth _ _ Hl) as [H1 H2].
  split; [|split; [exact H1 | exact H2]].
  intros Hlen.
  pose proof (randomInt_range _ _ r (proj2 Hlen)) as Hr. rewrite <- Ht in Hr.
  lia.
Qed.

Lemma generateChain_spec_witness :
  let config := {| minLength := 10; maxLength := 20; cfg_difficulty := L2 |} in
  let c := fst (generateChain config (fun n => Z.of_nat n * 2 ^ 49)) in
  1 <= minLength config <= maxLength config
  /\ minLength config <= Z.of_nat (List.length (steps c)) <= maxLength config.
Proof.
  intros config c.
  assert (H : 1 <= minLength config <= maxLength config) by (simpl; lia).
  split; [exact H|].
  exact (proj1 (generateChain_spec config (fun n => Z.of_nat n * 2 ^ 49)) H).
Defined.

(** A level-5 chain of three steps on a fixed stream of draws. *)
Example generateChain_run :
  let c := fst (generateChain
                  {| minLength := 3; maxLength := 3; cfg_difficulty := L5 |}
                  (fun n => Z.of_nat n * 2 ^ 51)) in
  map (fun st => (stepNumber st, previousResult st, addend st, result st, display st))
      (steps c)
  = [(1, 400, 600, 1000, "400 + 600 = ?"%string);
     (2, 1000, 500, 1500, "1,000 + 500 = ?"%string);
     (3, 1500, 200, 1700, "1,500 + 200 = ?"%string)]
  /\ finalResult c = 1700.
Proof. vm_compute. split; reflexivity. Qed.

(** C8. For [totalSteps > 0], the score [calculateChainStats] returns is
    [correctSteps * 10 + round (accuracy * 2) + speed + completion] with
    [accuracy = correctSteps / totalSteps * 100], the speed bonus
    [round ((5 - avg) * 10)] when [avg = totalTimeMs / totalSteps / 1000]
    is below 5 and [0] otherwise, and the completion bonus 50 or 0; the
    [accuracy] field holds that accuracy rounded. *)
Theorem calculateChainStats_score
    (totalSteps correctSteps totalTimeMs : JS.number) (completed : bool) :
  JS.gtb totalSteps 0%float = true ->
  (let accuracy := correctSteps / totalSteps * 100 in
   let avgTimePerStepSec := totalTimeMs / totalSteps / 1000 in
   let stats := calculateChainStats totalSteps correctSteps totalTimeMs completed in
   finalScore stats
   = correctSteps * 10
     + JS.Math_round (accuracy * 2)
     + (if avgTimePerStepSec <? 5
        then JS.Math_round ((5 - avgTimePerStepSec) * 10) else 0)
     + (if completed then 50 else 0)
   /\ ChainEngine.accuracy stats = JS.Math_round accuracy
   /\ averageTimePerStep stats = JS.Math_round (avgTimePerStepSec * 10) / 10)%float.
Proof.
  intros Hpos. unfold calculateChainStats. rewrite Hpos. simpl.
  repeat split; reflexivity.
Qed.

Lemma calculateChainStats_score_witness :
  (JS.gtb 3 0 = true
   /\ finalScore (calculateChainStats 3 1 0 false) = 127
   /\ finalScore (calculateChainStats 10 8 30000 true) = 310)%float.
Proof.
  split; [reflexivity|]. split.
  - rewrite (proj1 (calculateChainStats_score 3 1 0 false eq_refl))%float.
    vm_compute. reflexivity.
  - rewrite (proj1 (calculateChainStats_score 10 8 30000 true eq_refl))%float.
    vm_compute. reflexivity.
Defined.

End ChainProperties.

(** ** Ratio comparison engine *)

Section RatioProperties.

Import JS RatioEngine.
Local Open Scope float_scope.

(** The ratio loop runs at most [100 - attempts] times, leaves by its own
    guard, and returns the difference of the pair it returns. *)
Lemma sampleRatios_exit (budget : nat) :
  forall (attempts : Z) (d : RatioDifficulty) (r : Rng),
    (attempts + Z.of_nat budget = 99)%Z ->
    let '(a, b, pd, n, _) := sampleRatios budget attempts d r in
    (attempts < n <= 100)%Z
    /\ unacceptable (DIFFICULTY_CONFIG d) a b pd && (n <? maxAttempts)%Z = false
    /\ pd = getPercentageDifference a b.
Proof.
  induction budget as [|k IH]; intros attempts d r Hb;
    cbn [sampleRatios]; unfold bind at 1;
    destruct (samplePair d r) as [[a b] r1].
  - unfold ret, maxAttempts. repeat split; lia.
  - destruct (unacceptable _ a b _ && (attempts + 1 <? maxAttempts)%Z) eqn:G.
    + specialize (IH (attempts + 1)%Z d r1).
      destruct (sampleRatios k (attempts + 1) d r1) as [[[[a' b'] pd'] n] r2].
      destruct IH as (? & ? & ?); [lia|].
      repeat split; try lia; assumption.
    + unfold ret, maxAttempts in *. repeat split; try lia; assumption.
Qed.

(** When the loop ends before the hundredth attempt, the two ratios of the
    returned problem have different values: the guard has rejected equal
    ones, and the swap keeps them apart. *)
Lemma generateRatioComparison_accepted (d : RatioDifficulty) (r : Rng)
    (a b : Ratio) (pd : number) (n : Z) (r1 : Rng) :
  sampleRatios 99 0 d r = (a, b, pd, n, r1) ->
  (n < 100)%Z ->
  let p := fst (generateRatioComparison d r) in
  (value (ratioA p) =? value (ratioB p)) = false
  /\ ((ratioA p, ratioB p) = (a, b) \/ (ratioA p, ratioB p) = (b, a)).
Proof.
  intros Hs Hlt.
  pose proof (sampleRatios_exit 99 0 d r eq_refl) as H. rewrite Hs in H.
  destruct H as (Hn & Hg & _).
  unfold generateRatioComparison, Math_random, next, bind, ret. rewrite Hs.
  cbv beta iota.
  replace (maxAttempts <=? n)%Z with false by (unfold maxAttempts; lia).
  replace (n <? maxAttempts)%Z with true in Hg by (unfold maxAttempts; lia).
  rewrite andb_true_r in Hg. unfold unacceptable in Hg.
  apply orb_false_iff in Hg. destruct Hg as [Hg _].
  apply orb_false_iff in Hg. destruct Hg as [_ Hne].
  assert (Hsym : (value b =? value a) = false)
    by (rewrite float_eqb_sym; exact Hne).
  destruct (gtb _ 0.5); cbn [fst ratioA ratioB]; split; auto.
Qed.

(** The answer names the ratio with the strictly larger value. *)
Lemma generateRatioComparison_answer (d : RatioDifficulty) (r : Rng) :
  let p := fst (generateRatioComparison d r) in
  (gtb (value (ratioA p)) (value (ratioB p)) = true -> correctAnswer p = A)
  /\ (gtb (value (ratioB p)) (value (ratioA p)) = true -> correctAnswer p = B).
Proof.
  unfold generateRatioComparison, Math_random, next, bind, ret.
  destruct (sampleRatios 99 0 d r) as [[[[a b] pd] n] r1].
  destruct (if (maxAttempts <=? n)%Z then _ else _) as [b' pd'].
  cbv beta iota.
  assert (Hasym : forall x y : number, gtb x y = true -> gtb y x = false)
    by (intros x y; unfold gtb; apply float_ltb_asym).
  destruct (gtb _ 0.5); cbn [fst ratioA ratioB correctAnswer]; split; intros H;
    try (rewrite H; reflexivity);
    rewrite (Hasym _ _ H); reflexivity.
Qed.

(** C6. The claim fails on the fallback.  At level 5, under [tie_rng],
    every pass samples 100/120 against 299/350, which are 2.51 percent
    apart and rejected; after the hundredth pass the fallback numerator is
    [round (100 * (1 + 0.5 / 100)) = round 100.49999999999999 = 100], so
    ratio B becomes 100/120 as well: the two values tie, the answer is [B]
    and the reported difference is 0. *)
Theorem generateRatioComparison_tie :
  fst (samplePair L5 tie_rng) = (createRatio 100 120, createRatio 299 350)
  /\ unacceptable (DIFFICULTY_CONFIG L5) (createRatio 100 120) (createRatio 299 350)
       (getPercentageDifference (createRatio 100 120) (createRatio 299 350)) = true
  /\ (let '(a, _, _, n, _) := sampleRatios 99 0 L5 tie_rng in
      n = 100%Z /\ a = createRatio 100 120)
  /\ (100 * (1 + 0.5 / 100) <? 100.5) = true
  /\ fallback (DIFFICULTY_CONFIG L5) (createRatio 100 120) = createRatio 100 120
  /\ (let p := fst (generateRatioComparison L5 tie_rng) in
      ratioA p = createRatio 100 120
      /\ ratioB p = createRatio 100 120
      /\ (value (ratioA p) =? value (ratioB p)) = true
      /\ correctAnswer p = B
      /\ percentageDiff p = 0).
Proof. vm_compute. repeat split. Qed.

End RatioProperties.

(** ** The retry loops *)

Section RetryLoops.

Local Open Scope float_scope.








End RetryLoops.

(** ** The stores *)

Section StoreProperties.

Local Open Scope float_scope.



Lemma count_nonneg {A} (p : A -> bool) (xs : list A) :
  (0 <= DivisibilityStore.count p xs)%Z.
Proof. unfold DivisibilityStore.count. lia. Qed.

(** C5, as stated, fails: the simple store has no guard.  Submitting to
    the initial state, which has no current answer, is counted as a wrong
    answer. *)
Lemma simple_store_counts_submission_without_problem :
  let s := GameStore.initialState in
  let s' := snd (GameStore.submitAnswer 5 1000 s) in
  GameStore.currentAnswer s = None
  /\ GameStore.totalQuestions (GameStore.stats s) = 0%Z
  /\ GameStore.totalQuestions (GameStore.stats s') = 1%Z
  /\ s' <> s.
Proof.
  cbv zeta. repeat split. intros H.
  apply (f_equal (fun s => GameStore.totalQuestions (GameStore.stats s))) in H.
  vm_compute in H. discriminate.
Qed.

(** C5, amended. In the chain store and in the divisibility store an
    answer submitted while there is no chain or no current problem is
    rejected ([false]) and the state is left as it was, and nothing
    throws.  The percentage and the ratio modes keep their session in the
    component: their [handleAnswer] returns at once when there is no
    problem and leaves every counter as it was, while with a problem it
    counts the question.  The simple store has no such guard: with no
    current answer [submitAnswer] returns [false] without throwing, but
    records the submission as an incorrect answer (one more question, the
    streak reset, a time appended); the guard is in its caller,
    [handleAnswer], which leaves the store alone when there is no
    problem. *)
Theorem submit_without_problem :
  (forall (answer now : Z) (s : ChainStore.State),
     ChainStore.chain s = None ->
     ChainStore.submitAnswer answer now s = Some (false, s))
  /\ (forall (now : Z) (s : ChainStore.State),
        ChainStore.chain s = None -> ChainStore.skipStep now s = s)
  /\ (forall (answer : bool) (s : DivisibilityStore.State),
        DivisibilityStore.currentProblem s = None ->
        DivisibilityStore.submitDivisibilityAnswer answer s = (false, s))
  /\ (forall (answer now : Z) (s : DivisibilityStore.State),
        DivisibilityStore.currentProblem s = None ->
        DivisibilityStore.submitRemainderAnswer answer now s = (false, s))
  /\ (forall (userAnswer : JS.number) (s : PercentageGame.State),
        PercentageGame.problem s = None ->
        PercentageGame.handleAnswer userAnswer s = s)
  /\ (forall (userAnswer : JS.number) (s : PercentageGame.State) p,
        PercentageGame.problem s = Some p ->
        PercentageGame.blank (PercentageGame.value s) = false ->
        JS.isNaN userAnswer = false ->
        PercentageGame.questionCount (PercentageGame.handleAnswer userAnswer s)
        = (PercentageGame.questionCount s + 1)%Z)
  /\ (forall (answer : RatioEngine.Answer) (s : RatioGame.State),
        RatioGame.problem s = None ->
        RatioGame.handleAnswer answer s = s)
  /\ (forall (answer : RatioEngine.Answer) (s : RatioGame.State) p,
        RatioGame.problem s = Some p ->
        RatioGame.feedbackState s = RatioGame.neutral ->
        RatioGame.questionCount (RatioGame.handleAnswer answer s)
        = (RatioGame.questionCount s + 1)%Z)
  /\ (forall (userAnswer now : Z) (s : GameStore.GameState),
        GameStore.currentAnswer s = None ->
        let '(isCorrect, s') := GameStore.submitAnswer userAnswer now s in
        isCorrect = false
        /\ GameStore.totalQuestions (GameStore.stats s')
           = (GameStore.totalQuestions (GameStore.stats s) + 1)%Z
        /\ GameStore.correctAnswers (GameStore.stats s')
           = GameStore.correctAnswers (GameStore.stats s)
        /\ GameStore.currentStreak (GameStore.stats s') = 0%Z
        /\ GameStore.bestStreak (GameStore.stats s')
           = Z.max (GameStore.bestStreak (GameStore.stats s)) 0
        /\ GameStore.sessionTimes (GameStore.stats s')
           = GameStore.sessionTimes (GameStore.stats s)
             ++ [match JS.truthy (GameStore.questionStartTime s) with
                 | Some t => JS.num (now - t) / 1000
                 | None => 0
                 end])
  /\ (forall (userAnswer now : Z) (s : GameStore.GameState),
        MathGame.handleAnswer None userAnswer now s = s).
Proof.
  repeat apply conj.
  - intros answer now s H. unfold ChainStore.submitAnswer. rewrite H. reflexivity.
  - intros now s H. unfold ChainStore.skipStep. rewrite H. reflexivity.
  - intros answer s H. unfold DivisibilityStore.submitDivisibilityAnswer.
    rewrite H. reflexivity.
  - intros answer now s H. unfold DivisibilityStore.submitRemainderAnswer.
    rewrite H. reflexivity.
  - intros u s H. unfold PercentageGame.handleAnswer. rewrite H. reflexivity.
  - intros u s p Hp Hb Hn. unfold PercentageGame.handleAnswer.
    rewrite Hp, Hb, Hn. reflexivity.
  - intros a s H. unfold RatioGame.handleAnswer. rewrite H. reflexivity.
  - intros a s p Hp Hf. unfold RatioGame.handleAnswer. rewrite Hp, Hf.
    reflexivity.
  - intros u now s H. unfold GameStore.submitAnswer. rewrite H. cbn.
    repeat split; lia.
  - reflexivity.
Qed.

Lemma submit_without_problem_witness :
  ChainStore.submitAnswer 5 1000 ChainStore.initialState
    = Some (false, ChainStore.initialState)
  /\ DivisibilityStore.submitDivisibilityAnswer true DivisibilityStore.initialState
     = (false, DivisibilityStore.initialState)
  /\ DivisibilityStore.submitRemainderAnswer 0 1000 DivisibilityStore.initialState
     = (false, DivisibilityStore.initialState).
Proof.
  destruct submit_without_problem as (H1 & _ & H3 & H4 & _).
  split; [apply H1; reflexivity|].
  split; [apply H3 | apply H4]; reflexivity.
Defined.



(** The default chain always has a first step. *)
Lemma generateDefaultChain_nonempty (d : Level) (r : Rng) :
  (1 <= ChainStore.stepsLength (fst (ChainEngine.generateDefaultChain d r)))%Z.
Proof.
  unfold ChainStore.stepsLength, ChainEngine.generateDefaultChain.
  destruct (generateChain_shape
              {| ChainEngine.minLength := 10; ChainEngine.maxLength := 20;
                 ChainEngine.cfg_difficulty := d |} r) as (_ & H & _).
  cbv zeta in H. rewrite H. lia.
Qed.

(** Inside the bounds, [xs[i]] is the element at [i]. *)
Lemma index_in_bounds {A} (xs : list A) (i : Z) :
  (0 <= i < Z.of_nat (List.length xs))%Z ->
  exists x, JS.index xs i = Some x /\ nth_error xs (Z.to_nat i) = Some x.
Proof.
  intros H. unfold JS.index.
  replace (i <? 0)%Z with false by lia.
  destruct (nth_error xs (Z.to_nat i)) as [x|] eqn:E; [eauto|].
  apply nth_error_None in E. lia.
Qed.

(** C10. With the invariant [chainInv] (a chain, when present, has its
    current index among its steps), which holds initially: every action
    returns without throwing and keeps the invariant; submitting on the
    last step goes to review and leaves the index where it is.
    [getCurrentStep] returns the step at the index under the invariant;
    in any state it returns [null] when there is no chain or the index is
    past the last step, and with an index that is not negative it never
    returns the [undefined] of a read outside the array. *)
Theorem chain_index_in_bounds (s : ChainStore.State) :
  chainInv s ->
  (forall a : ChainStore.Action,
     exists s', ChainStore.step a s = Some s' /\ chainInv s')
  /\ (forall (answer now : Z) (c : ChainEngine.GeneratedChain),
        ChainStore.chain s = Some c ->
        ChainStore.currentStepIndex s = (ChainStore.stepsLength c - 1)%Z ->
        exists b s',
          ChainStore.submitAnswer answer now s = Some (b, s')
          /\ ChainStore.phase s' = ChainStore.review
          /\ ChainStore.currentStepIndex s' = ChainStore.currentStepIndex s)
  /\ (forall (answer now : Z) (c : ChainEngine.GeneratedChain),
        ChainStore.chain s = Some c ->
        (ChainStore.currentStepIndex s < ChainStore.stepsLength c - 1)%Z ->
        exists b s',
          ChainStore.submitAnswer answer now s = Some (b, s')
          /\ ChainStore.phase s' = ChainStore.playing
          /\ ChainStore.currentStepIndex s'
             = (ChainStore.currentStepIndex s + 1)%Z)
  /\ (forall c : ChainEngine.GeneratedChain,
        ChainStore.chain s = Some c ->
        exists st,
          ChainStore.getCurrentStep s = JS.JSvalue st
          /\ nth_error (ChainEngine.steps c)
                       (Z.to_nat (ChainStore.currentStepIndex s)) = Some st)
  /\ (forall s0 : ChainStore.State,
        ChainStore.chain s0 = None
        \/ (exists c, ChainStore.chain s0 = Some c
                      /\ (ChainStore.stepsLength c <= ChainStore.currentStepIndex s0)%Z) ->
        ChainStore.getCurrentStep s0 = JS.JSnull)
  /\ (forall s0 : ChainStore.State,
        (0 <= ChainStore.currentStepIndex s0)%Z ->
        ChainStore.getCurrentStep s0 <> JS.JSundefined)
  /\ chainInv ChainStore.initialState.
Proof.
  intros Hinv. unfold chainInv in Hinv.
  assert (Hsubmit :
    forall answer now c, ChainStore.chain s = Some c ->
      exists st,
        JS.index (ChainEngine.steps c) (ChainStore.currentStepIndex s) = Some st
        /\ ChainStore.submitAnswer answer now s
           = Some ((answer =? ChainEngine.result st)%Z,
                   ChainStore.record c
                     {| ChainStore.step_of := Some st;
                        ChainStore.userAnswer := Some answer;
                        ChainStore.isCorrect := (answer =? ChainEngine.result st)%Z;
                        ChainStore.timeMs :=
                          ChainStore.elapsed (ChainStore.stepStartTime s) now |}
                     now s)).
  { intros answer now c Hc. rewrite Hc in Hinv.
    destruct (index_in_bounds (ChainEngine.steps c)
                (ChainStore.currentStepIndex s) Hinv) as (st & Hst & _).
    exists st. split; [exact Hst|].
    unfold ChainStore.submitAnswer. rewrite Hc.
    replace (ChainStore.stepsLength c <=? ChainStore.currentStepIndex s)%Z
      with false by lia.
    rewrite Hst. reflexivity. }
  assert (Hrecord :
    forall c res now, ChainStore.chain s = Some c ->
      chainInv (ChainStore.record c res now s)).
  { intros c res now Hc. rewrite Hc in Hinv.
    unfold chainInv, ChainStore.record. cbn. rewrite Hc.
    destruct (_ <=? _)%Z eqn:E; lia. }
  repeat apply conj.
  - intros a. destruct a; cbn [ChainStore.step].
    + eexists; split; [reflexivity|]. exact Hinv.
    + eexists; split; [reflexivity|]. unfold chainInv, ChainStore.startGame.
      cbn [ChainStore.chain ChainStore.currentStepIndex].
      pose proof (generateDefaultChain_nonempty (ChainStore.difficulty s) rng).
      lia.
    + destruct (ChainStore.chain s) as [c|] eqn:Hc.
      * destruct (Hsubmit answer now c eq_refl) as (st & _ & ->). cbn.
        eexists; split; [reflexivity|]. apply Hrecord. reflexivity.
      * unfold ChainStore.submitAnswer. rewrite Hc. cbn.
        eexists; split; [reflexivity|]. unfold chainInv. rewrite Hc. exact I.
    + eexists; split; [reflexivity|]. unfold ChainStore.skipStep.
      destruct (ChainStore.chain s) as [c|] eqn:Hc.
      * destruct (_ <=? _)%Z; [unfold chainInv; rewrite Hc; exact Hinv|].
        apply Hrecord. reflexivity.
      * unfold chainInv. rewrite Hc. exact I.
    + eexists; split; [reflexivity|]. unfold ChainStore.nextStep.
      destruct (ChainStore.chain s) as [c|] eqn:Hc.
      * destruct (_ <? _)%Z eqn:E; unfold chainInv; cbn; rewrite ?Hc; lia.
      * unfold chainInv. rewrite Hc. exact I.
    + eexists; split; [reflexivity|]. exact Hinv.
    + eexists; split; [reflexivity|]. unfold ChainStore.endGame.
      destruct (ChainStore.chain s) as [c|] eqn:Hc.
      * destruct (ChainStore.stepResults s); unfold chainInv; cbn;
          rewrite ?Hc; exact Hinv.
      * unfold chainInv. cbn. rewrite Hc. exact I.
    + eexists; split; [reflexivity|]. exact I.
  - intros answer now c Hc Hlast.
    destruct (Hsubmit answer now c Hc) as (st & _ & ->).
    do 2 eexists. split; [reflexivity|].
    unfold ChainStore.record. cbn.
    replace (_ <=? _)%Z with true by lia. split; reflexivity.
  - intros answer now c Hc Hlast.
    destruct (Hsubmit answer now c Hc) as (st & _ & ->).
    do 2 eexists. split; [reflexivity|].
    unfold ChainStore.record. cbn.
    replace (_ <=? _)%Z with false by lia. split; reflexivity.
  - intros c Hc. rewrite Hc in Hinv.
    destruct (index_in_bounds (ChainEngine.steps c)
                (ChainStore.currentStepIndex s) Hinv) as (st & Hst & Hnth).
    exists st. split; [|exact Hnth].
    unfold ChainStore.getCurrentStep, JS.read. rewrite Hc.
    replace (_ <=? _)%Z with false by lia. rewrite Hst. reflexivity.
  - intros s0 [H | (c & Hc & Hpast)]; unfold ChainStore.getCurrentStep.
    + rewrite H. reflexivity.
    + rewrite Hc. replace (_ <=? _)%Z with true by lia. reflexivity.
  - intros s0 Hnn. unfold ChainStore.getCurrentStep.
    destruct (ChainStore.chain s0) as [c|]; [|discriminate].
    destruct (ChainStore.stepsLength c <=? ChainStore.currentStepIndex s0)%Z
      eqn:E; [discriminate|].
    apply Z.leb_gt in E.
    destruct (index_in_bounds (ChainEngine.steps c)
                (ChainStore.currentStepIndex s0)) as (st & Hst & _).
    { unfold ChainStore.stepsLength in E. lia. }
    unfold JS.read. rewrite Hst. discriminate.
  - exact I.
Qed.

Lemma chain_index_in_bounds_witness :
  chainInv midChain
  /\ (exists s', ChainStore.step (ChainStore.SubmitAnswer 100 2000) midChain = Some s'
                 /\ chainInv s')
  /\ ChainStore.getCurrentStep ChainStore.initialState = JS.JSnull.
Proof.
  assert (H : chainInv midChain).
  { unfold chainInv. vm_compute. split; [discriminate | reflexivity]. }
  split; [exact H|]. split.
  - exact (proj1 (chain_index_in_bounds midChain H)
             (ChainStore.SubmitAnswer 100 2000)).
  - apply (proj1 (proj2 (proj2 (proj2 (proj2 (chain_index_in_bounds midChain H)))))).
    left. reflexivity.
Defined.

(** The end-to-end scenarios of the spec, run on the stores. *)
Example simple_store_scenario :
  let p := {| MathGame.operand1 := 47; MathGame.operand2 := 21;
              MathGame.operation := MathGame.addition;
              MathGame.question := "47 + 21"; MathGame.answer := 68;
              MathGame.difficulty := L1 |} in
  let s := MathGame.handleAnswer (Some p) 68 1000 GameStore.initialState in
  (GameStore.totalQuestions (GameStore.stats s),
   GameStore.correctAnswers (GameStore.stats s),
   GameStore.currentStreak (GameStore.stats s),
   GameStore.bestStreak (GameStore.stats s)) = (1, 1, 1, 1)%Z.
Proof. vm_compute. reflexivity. Qed.

Example divisibility_store_scenario :
  let s0 :=
    DivisibilityStore.startGame (fun _ => 0%Z) 1000 DivisibilityStore.initialState in
  let s1 :=
    {| DivisibilityStore.difficulty := DivisibilityStore.difficulty s0;
       DivisibilityStore.acceptNegativeRemainders := true;
       DivisibilityStore.phase := DivisibilityStore.phase s0;
       DivisibilityStore.currentProblem := Some problem_87_5;
       DivisibilityStore.problemCount := 1;
       DivisibilityStore.maxProblems := 1;
       DivisibilityStore.results := [];
       DivisibilityStore.userDivisibilityAnswer := None;
       DivisibilityStore.divisibilityResult := DivisibilityStore.pending;
       DivisibilityStore.gameStartTime := Some 1000%Z;
       DivisibilityStore.problemStartTime := Some 1000%Z;
       DivisibilityStore.totalGamesPlayed := 0;
       DivisibilityStore.totalProblemsAttempted := 0;
       DivisibilityStore.totalCorrectDivisibility := 0;
       DivisibilityStore.totalCorrectRemainder := 0;
       DivisibilityStore.bestAccuracy := 0 |} in
  let '(c1, s2) := DivisibilityStore.submitDivisibilityAnswer false s1 in
  let '(c2, s3) := DivisibilityStore.submitRemainderAnswer (-3) 4000 s2 in
  let s4 := DivisibilityStore.nextProblem (fun _ => 0%Z) 5000 s3 in
  (c1, c2) = (true, true)
  /\ DivisibilityStore.phase s4 = DivisibilityStore.summary
  /\ (DivisibilityStore.totalGamesPlayed s4,
      DivisibilityStore.totalProblemsAttempted s4,
      DivisibilityStore.totalCorrectDivisibility s4,
      DivisibilityStore.totalCorrectRemainder s4) = (1, 1, 1, 1)%Z
  /\ DivisibilityStore.bestAccuracy s4 = 100.
Proof. vm_compute. repeat split. Qed.

(** A whole game on the ten-step chain of [midChain], two answers right
    and eight wrong in thirty seconds: the tenth submission goes to review
    at index 9, and [endGame] scores 20 + 40 + 20 + 50. *)
Example chain_store_scenario :
  let answers := [100; 150; 0; 0; 0; 0; 0; 0; 0; 0]%Z in
  let play s a :=
    match s with
    | Some s => option_map snd (ChainStore.submitAnswer a 2000 s)
    | None => None
    end in
  match fold_left play answers (Some midChain) with
  | Some s =>
      ChainStore.phase s = ChainStore.review
      /\ ChainStore.currentStepIndex s = 9%Z
      /\ List.length (ChainStore.stepResults s) = 10%nat
      /\ (let s' := ChainStore.endGame 31000 s in
          (ChainStore.totalGamesPlayed s', ChainStore.totalChainsCompleted s')
            = (1, 1)%Z
          /\ ChainStore.bestScore s' = 130)
  | None => False
  end.
Proof. vm_compute. repeat split. Qed.

End StoreProperties.

(* ================================================================== *)
(** * Part III: further properties of the engines and the stores      *)
(* ================================================================== *)

(** ** Arithmetic engine *)

Section MathEngineProperties.

Import MathGame MathEngine.

Lemma generateNumberWithDigits_range (digits : Z) (r : Rng) :
  1 <= digits -> hasDigits digits (fst (generateNumberWithDigits digits r)).
Proof.
  intros Hd. unfold generateNumberWithDigits, hasDigits.
  apply randomInt_range.
  replace digits with (digits - 1 + 1) at 2 by lia.
  rewrite Z.pow_add_r by lia.
  pose proof (Z.pow_pos_nonneg 10 (digits - 1) ltac:(lia) ltac:(lia)). lia.
Qed.

Lemma digits_ok (d : Difficulty) :
  1 <= digits1 (DIFFICULTY_CONFIG d) <= digits2 (DIFFICULTY_CONFIG d).
Proof. destruct d; cbn; lia. Qed.

Lemma generateAddition_fields (d : Difficulty) (r : Rng) :
  let p := fst (generateAddition d r) in
  hasDigits (digits1 (DIFFICULTY_CONFIG d)) (operand1 p)
  /\ hasDigits (digits2 (DIFFICULTY_CONFIG d)) (operand2 p)
  /\ answer p = operand1 p + operand2 p
  /\ operation p = addition
  /\ difficulty p = d
  /\ question p = (JS.Z_toString (operand1 p) ++ " + "
                   ++ JS.Z_toString (operand2 p))%string.
Proof.
  unfold generateAddition, bind, ret.
  pose proof (digits_ok d) as Hd.
  pose proof (generateNumberWithDigits_range (digits1 (DIFFICULTY_CONFIG d)) r
                ltac:(lia)) as H1.
  destruct (generateNumberWithDigits _ r) as [a r1]. cbn [fst] in H1.
  pose proof (generateNumberWithDigits_range (digits2 (DIFFICULTY_CONFIG d)) r1
                ltac:(lia)) as H2.
  destruct (generateNumberWithDigits _ r1) as [b r2]. cbn [fst] in H2.
  cbn [fst operand1 operand2 answer operation question difficulty].
  split; [exact H1 | split; [exact H2 | repeat split]].
Qed.

Lemma generateSubtraction_fields (d : Difficulty) (r : Rng) :
  let p := fst (generateSubtraction d r) in
  answer p = operand1 p - operand2 p
  /\ 0 <= answer p
  /\ operand2 p <= operand1 p
  /\ hasDigits (digits2 (DIFFICULTY_CONFIG d)) (operand1 p)
  /\ hasDigits (digits1 (DIFFICULTY_CONFIG d)) (operand2 p)
  /\ operation p = subtraction
  /\ difficulty p = d.
Proof.
  unfold generateSubtraction, bind, ret.
  pose proof (digits_ok d) as Hd.
  pose proof (generateNumberWithDigits_range (digits1 (DIFFICULTY_CONFIG d)) r
                ltac:(lia)) as H1.
  destruct (generateNumberWithDigits _ r) as [a r1]. cbn [fst] in H1.
  pose proof (generateNumberWithDigits_range (digits2 (DIFFICULTY_CONFIG d)) r1
                ltac:(lia)) as H2.
  destruct (generateNumberWithDigits _ r1) as [b r2]. cbn [fst] in H2.
  unfold hasDigits in *.
  cbn [fst operand1 operand2 answer operation question difficulty].
  assert (Hp1 : 10 ^ (digits1 (DIFFICULTY_CONFIG d) - 1)
                <= 10 ^ (digits2 (DIFFICULTY_CONFIG d) - 1))
    by (apply Z.pow_le_mono_r; lia).
  assert (Hp2 : 10 ^ digits1 (DIFFICULTY_CONFIG d)
                <= 10 ^ digits2 (DIFFICULTY_CONFIG d))
    by (apply Z.pow_le_mono_r; lia).
  repeat split; lia.
Qed.

(** X2. An addition problem has a first operand of [digits1] digits and a
    second operand of [digits2] digits for its level, and its answer is
    their sum. *)
Theorem generateAddition_spec (d : Difficulty) (r : Rng) :
  let p := fst (generateAddition d r) in
  hasDigits (digits1 (DIFFICULTY_CONFIG d)) (operand1 p)
  /\ hasDigits (digits2 (DIFFICULTY_CONFIG d)) (operand2 p)
  /\ answer p = operand1 p + operand2 p
  /\ operation p = addition.
Proof.
  pose proof (generateAddition_fields d r) as H. cbv zeta in *. tauto.
Qed.

(** X3. A subtraction problem subtracts the smaller sample from the
    larger: the answer is [operand1 - operand2] and is not negative.  The
    operands change places with respect to the level: [operand1] has
    [digits2] digits and [operand2] has [digits1] digits. *)
Theorem generateSubtraction_spec (d : Difficulty) (r : Rng) :
  let p := fst (generateSubtraction d r) in
  answer p = operand1 p - operand2 p
  /\ 0 <= answer p
  /\ operand2 p <= operand1 p
  /\ hasDigits (digits2 (DIFFICULTY_CONFIG d)) (operand1 p)
  /\ hasDigits (digits1 (DIFFICULTY_CONFIG d)) (operand2 p)
  /\ operation p = subtraction.
Proof.
  pose proof (generateSubtraction_fields d r) as H. cbv zeta in *. tauto.
Qed.

Lemma generateProblem_fields (choice : OperationChoice) (d : Difficulty) (r : Rng) :
  let p := fst (generateProblem choice d r) in
  (forall op, choice = fixed op -> operation p = op)
  /\ answer p = match operation p with
                | addition => operand1 p + operand2 p
                | subtraction => operand1 p - operand2 p
                end
  /\ 0 <= answer p
  /\ difficulty p = d.
Proof.
  assert (Hadd : forall r0, let p := fst (generateAddition d r0) in
            operation p = addition /\ answer p = operand1 p + operand2 p
            /\ 0 <= answer p /\ difficulty p = d).
  { intros r0. pose proof (generateAddition_fields d r0) as H. cbv zeta in *.
    destruct H as (H1 & H2 & H3 & H4 & H5 & _). unfold hasDigits in *.
    pose proof (digits_ok d).
    pose proof (Z.pow_pos_nonneg 10 (digits1 (DIFFICULTY_CONFIG d) - 1)
                  ltac:(lia) ltac:(lia)).
    pose proof (Z.pow_pos_nonneg 10 (digits2 (DIFFICULTY_CONFIG d) - 1)
                  ltac:(lia) ltac:(lia)).
    repeat split; try assumption; lia. }
  assert (Hsub : forall r0, let p := fst (generateSubtraction d r0) in
            operation p = subtraction /\ answer p = operand1 p - operand2 p
            /\ 0 <= answer p /\ difficulty p = d).
  { intros r0. pose proof (generateSubtraction_fields d r0) as H. cbv zeta in *.
    tauto. }
  unfold generateProblem, bind at 1.
  destruct choice as [[|]|].
  - unfold ret. destruct (Hadd r) as (Ho & Ha & Hn & Hd). cbv zeta.
    rewrite Ho. repeat split; try assumption. intros op [= <-]. reflexivity.
  - unfold ret. destruct (Hsub r) as (Ho & Ha & Hn & Hd). cbv zeta.
    rewrite Ho. repeat split; try assumption. intros op [= <-]. reflexivity.
  - unfold bind, ret. destruct (randomInt 0 1 r) as [i r1].
    destruct (JS.index [addition; subtraction] i) as [[|]|].
    + destruct (Hadd r1) as (Ho & Ha & Hn & Hd). cbv zeta.
      rewrite Ho. repeat split; try assumption. discriminate.
    + destruct (Hsub r1) as (Ho & Ha & Hn & Hd). cbv zeta.
      rewrite Ho. repeat split; try assumption. discriminate.
    + destruct (Hsub r1) as (Ho & Ha & Hn & Hd). cbv zeta.
      rewrite Ho. repeat split; try assumption. discriminate.
Qed.

(** X4. [generateProblem] returns the operation it is asked for, and either
    one when asked for a mix; in every case the answer is the sum or the
    difference of the two operands as the returned operation says, and it
    is not negative. *)
Theorem generateProblem_spec (choice : OperationChoice) (d : Difficulty) (r : Rng) :
  let p := fst (generateProblem choice d r) in
  (forall op, choice = fixed op -> operation p = op)
  /\ answer p = match operation p with
                | addition => operand1 p + operand2 p
                | subtraction => operand1 p - operand2 p
                end
  /\ 0 <= answer p
  /\ difficulty p = d.
Proof. exact (generateProblem_fields choice d r). Qed.

End MathEngineProperties.

(** ** Divisibility engine, continued *)

Section DivisibilityRanges.

Import DivisibilityEngine.

(** The tables leave room for a quotient: the smallest dividend is at
    least twice, and the largest at least three times, the largest
    divisor, and the dividend range is wider than it. *)
Lemma ranges_fit (d : DivisibilityDifficulty) :
  let c := difficultyRanges d in
  2 * max (divisorRange c) <= min (dividendRange c)
  /\ 3 * max (divisorRange c) <= max (dividendRange c)
  /\ max (divisorRange c) <= max (dividendRange c) - min (dividendRange c).
Proof. destruct d; cbn; lia. Qed.

Lemma exact_problem_bounds (d : DivisibilityDifficulty) (r : Rng) :
  let c := difficultyRanges d in
  let p := fst (generateExactDivisibilityProblem d r) in
  min (divisorRange c) <= divisor p <= max (divisorRange c)
  /\ min (dividendRange c) <= dividend p <= max (dividendRange c)
  /\ 2 <= quotient p
  /\ dividend p = divisor p * quotient p.
Proof.
  cbv zeta. unfold generateExactDivisibilityProblem, bind, ret.
  pose proof (divisorRange_ok d) as [H2 Hle].
  pose proof (dividendRange_ok d) as [H10 Hle'].
  pose proof (ranges_fit d) as (Hf1 & Hf2 & Hf3). cbv zeta in *.
  set (c := difficultyRanges d) in *.
  pose proof (randomInt_range _ _ r Hle) as Hdv.
  destruct (randomInt _ _ r) as [dv r1]. cbn [fst] in Hdv.
  set (lo := min (dividendRange c)) in *. set (hi := max (dividendRange c)) in *.
  assert (Hceil : lo <= ceilDiv lo dv * dv < lo + dv).
  { unfold ceilDiv. pose proof (Z.div_mod (- lo) dv ltac:(lia)).
    pose proof (Z.mod_pos_bound (- lo) dv ltac:(lia)). nia. }
  assert (Hfloor : hi - dv < floorDiv hi dv * dv <= hi).
  { unfold floorDiv. pose proof (Z.div_mod hi dv ltac:(lia)).
    pose proof (Z.mod_pos_bound hi dv ltac:(lia)). nia. }
  assert (Hq2 : 2 <= ceilDiv lo dv) by nia.
  assert (Hq3 : 3 <= floorDiv hi dv) by nia.
  assert (Hqq : ceilDiv lo dv <= floorDiv hi dv) by nia.
  rewrite !Z.max_r by lia.
  pose proof (randomInt_range _ _ r1 Hqq) as Hq.
  destruct (randomInt _ _ r1) as [q r2]. cbn [fst] in Hq.
  cbn [fst divisor dividend quotient].
  repeat split; try lia; nia.
Qed.

Lemma remainder_problem_bounds (d : DivisibilityDifficulty) (r : Rng) :
  let c := difficultyRanges d in
  let p := fst (generateRemainderProblem d r) in
  min (divisorRange c) <= divisor p <= max (divisorRange c)
  /\ min (dividendRange c) <= dividend p
     <= max (dividendRange c) + divisor p - 1
  /\ 1 <= remainder p <= divisor p - 1
  /\ (dividend p <= max (dividendRange c)
      \/ Z.rem (dividend p - remainder p) (divisor p) = 0
         /\ dividend p - remainder p <= max (dividendRange c)).
Proof.
  cbv zeta.
  pose proof (remainder_invariant d r) as [Hinv Hne].
  unfold divisibilityInvariant in Hinv. destruct Hinv as (_ & Hr & _).
  revert Hr Hne.
  unfold generateRemainderProblem, bind, ret.
  pose proof (divisorRange_ok d) as [H2 Hle].
  pose proof (dividendRange_ok d) as [H10 Hle'].
  pose proof (randomInt_range _ _ r Hle) as Hdv.
  destruct (randomInt _ _ r) as [dv r1]. cbn [fst] in Hdv.
  pose proof (sampleDividend_exit 49 0 (dividendRange (difficultyRanges d)) dv r1
                eq_refl Hle') as Hs.
  destruct (sampleDividend 49 0 _ dv r1) as [[n a] r2].
  destruct Hs as (Hn & _ & _).
  destruct (Z.rem n dv =? 0) eqn:E.
  - apply Z.eqb_eq in E.
    pose proof (randomInt_range 1 (dv - 1) r2 ltac:(lia)) as Ho.
    destruct (randomInt 1 (dv - 1) r2) as [off r3]. cbn [fst] in Ho.
    cbn [fst divisor dividend remainder]. intros Hr Hne.
    assert (Hrem : Z.rem (n + off) dv = off).
    { rewrite Z.rem_mod_nonneg in * by lia.
      apply Z.mod_divide in E; [|lia]. destruct E as [k ->].
      rewrite Z.add_comm, Z.mod_add by lia. apply Z.mod_small. lia. }
    rewrite Hrem. repeat split; try lia.
    right. replace (n + off - off) with n by lia. split; [exact E | lia].
  - cbn [fst divisor dividend remainder]. intros Hr Hne.
    repeat split; try lia.
Qed.

(** X5. An exactly divisible problem stays inside the tables of its
    level: the divisor is in the divisor range, the dividend, a multiple of
    it, is in the dividend range, and the quotient is at least 2. *)
Theorem generateExactDivisibilityProblem_ranges
    (d : DivisibilityDifficulty) (r : Rng) :
  let c := difficultyRanges d in
  let p := fst (generateExactDivisibilityProblem d r) in
  min (divisorRange c) <= divisor p <= max (divisorRange c)
  /\ min (dividendRange c) <= dividend p <= max (dividendRange c)
  /\ 2 <= quotient p
  /\ dividend p = divisor p * quotient p.
Proof. exact (exact_problem_bounds d r). Qed.

(** X6. A problem with a remainder has its divisor in the divisor range
    and a remainder between 1 and [divisor - 1]; its dividend is at least
    the smallest of the dividend range and exceeds the largest by less than
    the divisor.  It does exceed it on some draws: at level 2 the forced
    offset turns 99 into 100. *)
Theorem generateRemainderProblem_ranges :
  (forall (d : DivisibilityDifficulty) (r : Rng),
     let c := difficultyRanges d in
     let p := fst (generateRemainderProblem d r) in
     min (divisorRange c) <= divisor p <= max (divisorRange c)
     /\ min (dividendRange c) <= dividend p
        <= max (dividendRange c) + divisor p - 1
     /\ 1 <= remainder p <= divisor p - 1)
  /\ (exists r : Rng,
        let p := fst (generateRemainderProblem L2 r) in
        dividend p = 100 /\ divisor p = 3
        /\ max (dividendRange (difficultyRanges L2)) = 99).
Proof.
  split.
  - intros d r. pose proof (remainder_problem_bounds d r) as H.
    cbv zeta in *. tauto.
  - exists (fun n => match n with
                     | O => 2 ^ 50
                     | _ => if Nat.leb n 50 then 2 ^ 53 - 2 ^ 43 else 0
                     end).
    vm_compute. repeat split.
Qed.

(** The fields of a problem that satisfies the invariant are those of the
    Euclidean division, and the validators decide accordingly. *)
Lemma invariant_validators (p : DivisibilityProblem) :
  divisibilityInvariant p ->
  remainder p = dividend p mod divisor p
  /\ quotient p = dividend p / divisor p
  /\ (forall b, validateDivisibilityAnswer p b = true
                <-> (b = true <-> dividend p mod divisor p = 0))
  /\ (forall u, validateRemainderAnswer p u false = true
                <-> u = dividend p mod divisor p)
  /\ (forall u, validateRemainderAnswer p u true = true
                <-> (u mod divisor p = dividend p mod divisor p
                     /\ - divisor p < u < divisor p))
  /\ (negativeRemainder p <> 0 ->
      dividend p = divisor p * (quotient p + 1) + negativeRemainder p
      /\ - divisor p < negativeRemainder p < 0).
Proof.
  unfold divisibilityInvariant. intros (Heq & Hr & Hneg & Hdiv).
  assert (Hd : 0 < divisor p) by lia.
  assert (Hmod : remainder p = dividend p mod divisor p).
  { symmetry. rewrite Heq, Z.mul_comm, Z.add_comm, Z.mod_add by lia.
    apply Z.mod_small. lia. }
  assert (Hquo : quotient p = dividend p / divisor p).
  { symmetry. rewrite Heq, Z.mul_comm, Z.div_add_l by lia.
    rewrite Z.div_small by lia. lia. }
  assert (Hb : isDivisible p = (remainder p =? 0)).
  { destruct (isDivisible p); symmetry.
    - apply Z.eqb_eq. apply Hdiv. reflexivity.
    - apply Z.eqb_neq. intros H0. apply Hdiv in H0. discriminate. }
  clear Hdiv.
  split; [exact Hmod|]. split; [exact Hquo|]. rewrite <- Hmod.
  assert (Hacc : forall u acc, validateRemainderAnswer p u acc = true
                   <-> u = remainder p
                       \/ (acc = true /\ u = negativeRemainder p)).
  { intros u acc. unfold validateRemainderAnswer. rewrite Hb, Hneg.
    destruct acc; cbn [andb];
      repeat match goal with
             | |- context [Z.eqb ?a ?b] => destruct (Z.eqb_spec a b)
             | |- context [Z.ltb ?a ?b] => destruct (Z.ltb_spec a b)
             end; cbn; split; intros Hyp;
      first [ reflexivity
            | discriminate
            | destruct Hyp as [Hyp | [Hyp1 Hyp]]; first [discriminate | lia]
            | left; lia
            | right; split; [reflexivity | lia] ]. }
  repeat apply conj.
  - intros b. unfold validateDivisibilityAnswer. rewrite Hb.
    destruct b; destruct (remainder p =? 0) eqn:E;
      rewrite ?Z.eqb_eq, ?Z.eqb_neq in *; cbn;
      split; intros H; try reflexivity; try discriminate.
    + split; intros; [assumption | reflexivity].
    + destruct H as [H _]. specialize (H eq_refl). contradiction.
    + destruct H as [_ H]. specialize (H E). discriminate.
    + split; [discriminate | contradiction].
  - intros u. rewrite Hacc. split; [intros [H | [H _]]; [exact H | discriminate] | auto].
  - intros u. rewrite Hacc, Hneg. split.
    + intros [-> | [_ ->]].
      * split; [apply Z.mod_small; lia | lia].
      * destruct (0 <? remainder p) eqn:Epos.
        -- apply Z.ltb_lt in Epos. split; [|lia].
           replace (remainder p - divisor p)
             with (remainder p + (-1) * divisor p) by lia.
           rewrite Z.mod_add by lia. apply Z.mod_small. lia.
        -- apply Z.ltb_ge in Epos.
           assert (remainder p = 0) by lia.
           split; [rewrite Z.mod_0_l by lia; congruence | lia].
    + intros [Hm Hbd]. destruct (Z_le_gt_dec 0 u).
      * left. rewrite Z.mod_small in Hm by lia. exact Hm.
      * right. split; [reflexivity|].
        assert (Hu : (u + 1 * divisor p) mod divisor p = remainder p)
          by (rewrite Z.mod_add by lia; exact Hm).
        rewrite Z.mod_small in Hu by lia.
        replace (0 <? remainder p) with true by (symmetry; apply Z.ltb_lt; lia).
        lia.
  - rewrite Hneg. destruct (0 <? remainder p) eqn:Epos.
    + apply Z.ltb_lt in Epos. intros _. split; lia.
    + intros H. contradiction.
Qed.

Lemma generated_invariant (config : DivisibilityConfig) (r : Rng) :
  divisibilityInvariant (fst (generateDivisibilityProblem config r))
  /\ min (divisorRange (difficultyRanges (cfg_difficulty config)))
     <= divisor (fst (generateDivisibilityProblem config r))
     <= max (divisorRange (difficultyRanges (cfg_difficulty config))).
Proof.
  unfold generateDivisibilityProblem, bind.
  assert (He := fun r0 => conj (exact_invariant (cfg_difficulty config) r0)
                    (proj1 (exact_problem_bounds (cfg_difficulty config) r0))).
  assert (Hr := fun r0 => conj (proj1 (remainder_invariant (cfg_difficulty config) r0))
                    (proj1 (remainder_problem_bounds (cfg_difficulty config) r0))).
  destruct (includeExactDivisibility config).
  - unfold Math_random, bind, ret. destruct (next r) as [k r1].
    destruct (_ <? _)%float; [apply He | apply Hr].
  - unfold ret. apply Hr.
Qed.

(** X7. On every generated problem the answer key is the Euclidean
    division of the dividend by the divisor: the divisibility validator
    accepts "divisible" exactly when the divisor divides the dividend;
    without negative remainders the remainder validator accepts exactly
    [dividend mod divisor]; with them it accepts exactly the numbers
    congruent to the dividend that lie strictly between [- divisor] and
    [divisor]; and a non-zero negative remainder [n] satisfies
    [dividend = divisor * (quotient + 1) + n]. *)
Theorem generated_problem_validators (config : DivisibilityConfig) (r : Rng) :
  let p := fst (generateDivisibilityProblem config r) in
  remainder p = dividend p mod divisor p
  /\ quotient p = dividend p / divisor p
  /\ (forall b, validateDivisibilityAnswer p b = true
                <-> (b = true <-> dividend p mod divisor p = 0))
  /\ (forall u, validateRemainderAnswer p u false = true
                <-> u = dividend p mod divisor p)
  /\ (forall u, validateRemainderAnswer p u true = true
                <-> (u mod divisor p = dividend p mod divisor p
                     /\ - divisor p < u < divisor p))
  /\ (negativeRemainder p <> 0 ->
      dividend p = divisor p * (quotient p + 1) + negativeRemainder p
      /\ - divisor p < negativeRemainder p < 0).
Proof.
  intros p. apply invariant_validators. apply generated_invariant.
Qed.

(** X8. The hint table covers exactly the divisors 2 to 12.  Every
    problem of levels 1 to 3 therefore has a hint, and levels 4 and 5, whose
    divisors go up to 25 and 50, produce problems that have none. *)
Theorem getDivisibilityHint_coverage :
  (forall z : Z, getDivisibilityHint z <> None <-> 2 <= z <= 12)
  /\ (forall (config : DivisibilityConfig) (r : Rng),
        levelNumber (cfg_difficulty config) <= 3 ->
        getDivisibilityHint
          (divisor (fst (generateDivisibilityProblem config r))) <> None)
  /\ (exists r : Rng,
        getDivisibilityHint
          (divisor (fst (generateDefaultProblem L4 r))) = None)
  /\ (exists r : Rng,
        getDivisibilityHint
          (divisor (fst (generateDefaultProblem L5 r))) = None).
Proof.
  assert (Hcov : forall z : Z, getDivisibilityHint z <> None <-> 2 <= z <= 12).
  { intros z. split.
    - intros H. destruct (Z_le_gt_dec 2 z); [destruct (Z_le_gt_dec z 12)|];
        [lia | |]; exfalso; apply H.
      + destruct z as [|q|q]; try reflexivity.
        do 4 (destruct q as [q|q|]; try reflexivity; try lia).
      + destruct z as [|q|q]; try reflexivity.
        destruct q as [q|q|]; try reflexivity; lia.
    - intros H.
      assert (z = 2 \/ z = 3 \/ z = 4 \/ z = 5 \/ z = 6 \/ z = 7 \/ z = 8
              \/ z = 9 \/ z = 10 \/ z = 11 \/ z = 12) as Hz by lia.
      repeat (destruct Hz as [-> | Hz]; [discriminate|]). subst. discriminate. }
  split; [exact Hcov|]. split; [|split].
  - intros config r Hl. apply Hcov.
    pose proof (proj2 (generated_invariant config r)) as Hd.
    destruct (cfg_difficulty config); cbn in *; lia.
  - exists (fun _ => 2 ^ 53 - 1). vm_compute. reflexivity.
  - exists (fun _ => 2 ^ 53 - 1). vm_compute. reflexivity.
Qed.

End DivisibilityRanges.

(** ** Percentage engine, continued *)

Section PercentageAnswers.

Import JS PercentageEngine.
Local Open Scope float_scope.

(** A finite number is within every tolerance of itself. *)
Lemma isPercentageCorrect_refl (c : number) (dp : DecimalPlaces) :
  isFinite c = true -> isPercentageCorrect c c dp = true.
Proof.
  intros Hfin. unfold isPercentageCorrect, Math_abs.
  rewrite leb_spec, abs_spec, sub_spec.
  unfold isFinite in Hfin. apply negb_true_iff, orb_false_iff in Hfin.
  destruct Hfin as [Hnan Hinf].
  unfold is_nan in Hnan. unfold is_infinity in Hinf.
  rewrite negb_false_iff, eqb_spec in Hnan.
  rewrite eqb_spec, abs_spec in Hinf.
  destruct (Prim2SF c) as [s | s | | s m e] eqn:Ec; try discriminate.
  - destruct s, dp; vm_compute; reflexivity.
  - unfold SF64sub, SFsub. rewrite Z.min_id. unfold shl_align.
    rewrite Z.sub_diag. cbn [fst]. rewrite ?Z.sub_diag.
    destruct dp; vm_compute; reflexivity.
Qed.

(** X9. A percentage problem that is returned has, as its answer, the
    rounded percentage of its own numerator and denominator; the answer is
    a finite number other than 25, 50, 75 and 100, it is at least 15 at
    levels 1 and 2, and [isPercentageCorrect] accepts it as an answer to
    the problem. *)
Theorem generatePercentageProblem_answer
    (fuel : nat) (d : PercentageDifficulty) (r : Rng) (p : PercentageProblem) :
  fst (generatePercentageProblem fuel d r) = Some p ->
  answer p = calculatePercentage (numerator p) (denominator p) (decimalPlaces p)
  /\ (answer p =? 25) = false /\ (answer p =? 50) = false
  /\ (answer p =? 75) = false /\ (answer p =? 100) = false
  /\ isFinite (answer p) = true
  /\ ((levelNumber d < 3)%Z -> (15 <=? answer p) = true)
  /\ isPercentageCorrect (answer p) (answer p) (decimalPlaces p) = true.
Proof.
  intros H. destruct (generatePercentageProblem_accepted fuel d r p H) as [Hrej Hans].
  unfold rejected in Hrej.
  repeat (apply orb_false_iff in Hrej; destruct Hrej as [Hrej ?]).
  match goal with Hf : negb (isFinite _) = false |- _ =>
    apply negb_false_iff in Hf; pose proof Hf as Hfin end.
  repeat split; try assumption.
  - intros Hl.
    match goal with Hc : (_ <? 3)%Z && _ = false |- _ =>
      replace (levelNumber d <? 3)%Z with true in Hc by lia;
      cbn [andb] in Hc; rename Hc into Hlt end.
    apply float_not_ltb_leb; [reflexivity | assumption | exact Hlt].
  - apply isPercentageCorrect_refl. exact Hfin.
Qed.

Lemma generatePercentageProblem_answer_witness :
  exists p,
    fst (generatePercentageProblem 1 L1 (fun _ => 0%Z)) = Some p
    /\ answer p = 20 /\ (15 <=? answer p) = true.
Proof.
  eexists. split; [vm_compute; reflexivity|].
  split; [reflexivity|].
  refine (proj1 (proj2 (proj2 (proj2 (proj2 (proj2 (proj2
    (generatePercentageProblem_answer 1 L1 (fun _ => 0%Z) _ eq_refl))))))) _).
  cbn. lia.
Defined.

End PercentageAnswers.

(** ** Ratio engine, continued *)

Section RatioConsistency.

Import JS RatioEngine.
Local Open Scope float_scope.

(** Two numbers neither of which is below the other are the same double,
    or are both zero. *)
Lemma float_equal_cases (a b : float) :
  is_nan a = false -> is_nan b = false ->
  (a <? b) = false -> (b <? a) = false ->
  a = b \/ ((a = 0 \/ a = -0) /\ (b = 0 \/ b = -0)).
Proof.
  intros Ha Hb Hab Hba.
  apply is_nan_spec in Ha, Hb.
  rewrite ltb_spec in Hab, Hba. unfold SFltb in *.
  rewrite (SFcompare_antisym (Prim2SF a) (Prim2SF b)) in Hba.
  destruct (SFcompare (Prim2SF a) (Prim2SF b)) as [[]|] eqn:C;
    cbn in Hba; try discriminate.
  2:{ destruct (SFcompare_None _ _ C); contradiction. }
  assert (Hzero : forall x s, Prim2SF x = S754_zero s -> x = 0 \/ x = -0).
  { intros x s Hx. rewrite <- (SF2Prim_Prim2SF x), Hx.
    destruct s; [right | left]; reflexivity. }
  destruct (Prim2SF a) as [sa|sa| |sa ma ea] eqn:Ea,
           (Prim2SF b) as [sb|sb| |sb mb eb] eqn:Eb;
    try contradiction; cbn in C;
    try (destruct sa; discriminate); try (destruct sb; discriminate).
  - right. split; [apply (Hzero a sa Ea) | apply (Hzero b sb Eb)].
  - left. apply Prim2SF_inj. rewrite Ea, Eb.
    destruct sa, sb; try discriminate; reflexivity.
  - left. apply Prim2SF_inj. rewrite Ea, Eb.
    destruct sa, sb; try discriminate;
      destruct (ea ?= eb)%Z eqn:Ce; try discriminate;
      apply Z.compare_eq in Ce; subst eb;
      destruct (Pos.compare_cont Eq ma mb) eqn:Cm; try discriminate;
      apply Pos.compare_eq in Cm; subst mb; reflexivity.
Qed.

Lemma Math_max_comm (a b : float) : Math_max a b = Math_max b a.
Proof.
  unfold Math_max. rewrite (orb_comm (is_nan b)).
  destruct (is_nan a) eqn:Ha; [reflexivity|].
  destruct (is_nan b) eqn:Hb; [reflexivity|]. cbn [orb].
  destruct (a <? b) eqn:Hab.
  - rewrite (float_ltb_asym _ _ Hab). reflexivity.
  - destruct (b <? a) eqn:Hba; [reflexivity|].
    destruct (float_equal_cases a b Ha Hb Hab Hba)
      as [-> | [[-> | ->] [-> | ->]]]; try reflexivity;
      destruct (get_sign b); reflexivity.
Qed.

Lemma Math_min_comm (a b : float) : Math_min a b = Math_min b a.
Proof.
  unfold Math_min. rewrite (orb_comm (is_nan b)).
  destruct (is_nan a) eqn:Ha; [reflexivity|].
  destruct (is_nan b) eqn:Hb; [reflexivity|]. cbn [orb].
  destruct (a <? b) eqn:Hab.
  - rewrite (float_ltb_asym _ _ Hab). reflexivity.
  - destruct (b <? a) eqn:Hba; [reflexivity|].
    destruct (float_equal_cases a b Ha Hb Hab Hba)
      as [-> | [[-> | ->] [-> | ->]]]; try reflexivity;
      destruct (get_sign b); reflexivity.
Qed.

(** The difference between two ratios does not depend on their order. *)
Lemma getPercentageDifference_comm (x y : Ratio) :
  getPercentageDifference x y = getPercentageDifference y x.
Proof.
  unfold getPercentageDifference.
  rewrite (Math_max_comm (value x)), (Math_min_comm (value x)). reflexivity.
Qed.

(** A ratio built by [createRatio]. *)
Lemma createRatio_fields (n m : number) :
  let x := createRatio n m in
  x = createRatio (numerator x) (denominator x).
Proof. reflexivity. Qed.

Lemma samplePair_created (d : RatioDifficulty) (r : Rng) :
  let '(a, b, _) := samplePair d r in
  a = createRatio (numerator a) (denominator a)
  /\ b = createRatio (numerator b) (denominator b).
Proof.
  unfold samplePair, bind, ret.
  destruct (randomInRange _ _ r) as [num1 r1].
  destruct (randomInRange _ _ r1) as [den1 r2].
  destruct (4 <=? levelNumber d)%Z.
  - destruct (Math_random r2) as [u r3].
    destruct (randomInRange _ _ r3) as [off r4].
    destruct (randomInRange _ _ r4) as [den2 r5].
    destruct (_ && _).
    + split; reflexivity.
    + destruct (randomInRange _ _ r5) as [n r6].
      destruct (randomInRange _ _ r6) as [m r7]. split; reflexivity.
  - destruct (randomInRange _ _ r2) as [num2 r3].
    destruct (randomInRange _ _ r3) as [den2 r4]. split; reflexivity.
Qed.

Lemma sampleRatios_created (budget : nat) :
  forall (attempts : Z) (d : RatioDifficulty) (r : Rng),
    let '(a, b, pd, _, _) := sampleRatios budget attempts d r in
    a = createRatio (numerator a) (denominator a)
    /\ b = createRatio (numerator b) (denominator b)
    /\ pd = getPercentageDifference a b.
Proof.
  induction budget as [|k IH]; intros attempts d r;
    cbn [sampleRatios]; unfold bind at 1;
    pose proof (samplePair_created d r) as Hp;
    destruct (samplePair d r) as [[a b] r1]; destruct Hp as [Ha Hb].
  - unfold ret. repeat split; assumption.
  - destruct (_ && _).
    + apply IH.
    + unfold ret. repeat split; assumption.
Qed.

(** X10. In every problem [generateRatioComparison] returns, each ratio
    carries the value and the display of its own numerator and denominator,
    the reported [percentageDiff] is the difference between the two ratios
    returned, rounded to two decimals, whether or not they were swapped or
    replaced by the fallback, and the answer is [A] exactly when ratio A is
    strictly larger. *)
Theorem generateRatioComparison_consistent (d : RatioDifficulty) (r : Rng) :
  let p := fst (generateRatioComparison d r) in
  ratioA p = createRatio (numerator (ratioA p)) (denominator (ratioA p))
  /\ ratioB p = createRatio (numerator (ratioB p)) (denominator (ratioB p))
  /\ percentageDiff p
     = Math_round (getPercentageDifference (ratioA p) (ratioB p) * 100) / 100
  /\ (correctAnswer p = A <-> gtb (value (ratioA p)) (value (ratioB p)) = true)
  /\ difficulty p = d.
Proof.
  pose proof (sampleRatios_created 99 0 d r) as H.
  unfold generateRatioComparison, Math_random, next, bind, ret.
  destruct (sampleRatios 99 0 d r) as [[[[a b] pd] n] r1].
  destruct H as (Ha & Hb & Hpd).
  assert (Hans : forall x y : Ratio,
            (if gtb (value x) (value y) then A else B) = A
            <-> gtb (value x) (value y) = true).
  { intros x y. destruct (gtb (value x) (value y)); split; congruence. }
  destruct (maxAttempts <=? n)%Z; cbv beta iota;
    destruct (gtb _ 0.5);
    cbn [fst ratioA ratioB percentageDiff correctAnswer difficulty];
    repeat split; try assumption; try reflexivity; try apply Hans;
    try (rewrite Hpd; reflexivity);
    try (rewrite Hpd, getPercentageDifference_comm; reflexivity);
    try (rewrite getPercentageDifference_comm; reflexivity);
    try (intros Hx; apply Hans in Hx; exact Hx).
Qed.

End RatioConsistency.

(** ** Chain engine, continued *)

Section ChainStructure.

Import ChainEngine.

(** Every range of the difficulty table is non-empty and positive. *)
Lemma startingNumbers_ok (d : ChainDifficulty) :
  0 < min (startingNumbers (difficultyRanges d))
    <= max (startingNumbers (difficultyRanges d)).
Proof. destruct d; cbn; lia. Qed.

Lemma getAddendRange_ok (k : Z) (d : ChainDifficulty) :
  0 < min (getAddendRange k d) <= max (getAddendRange k d).
Proof.
  unfold getAddendRange.
  destruct d; cbn; destruct (k <=? 5); try (cbn; lia);
    destruct (k <=? 10); try (cbn; lia); destruct (k <=? 15); cbn; lia.
Qed.

Lemma numbered_snoc (d : ChainDifficulty) (l : list ChainStep) (x : ChainStep) :
  numbered d l -> stepNumber x = Z.of_nat (List.length l) + 1 ->
  stepWithin d x -> numbered d (l ++ [x]).
Proof.
  intros Hl Hn Hx i st H.
  destruct (Nat.lt_ge_cases i (List.length l)) as [Hi | Hi].
  - rewrite nth_error_app1 in H by exact Hi. apply Hl. exact H.
  - rewrite nth_error_app2 in H by exact Hi.
    destruct (i - List.length l)%nat as [|j] eqn:E; cbn in H.
    + injection H as <-. replace i with (List.length l) by lia. auto.
    + destruct j; discriminate.
Qed.

Lemma remainingSteps_numbered (count : nat) :
  forall (i : Z) (d : ChainDifficulty) (cur : Z) (l : list ChainStep) (r : Rng),
    numbered d l -> i = Z.of_nat (List.length l) + 1 -> 2 <= i ->
    numbered d (fst (fst (remainingSteps count i d cur l r))).
Proof.
  induction count as [|n IH]; intros i d cur l r Hl Hi H2; cbn [remainingSteps].
  - exact Hl.
  - unfold bind at 1.
    pose proof (randomInt_range _ _ r (proj2 (getAddendRange_ok i d))) as Ha.
    destruct (randomInt _ _ r) as [a r1]. cbn [fst] in Ha.
    apply IH.
    + apply numbered_snoc; [exact Hl | cbn; exact Hi |].
      unfold stepWithin. cbn [stepNumber addend].
      replace (i =? 1) with false by lia. exact Ha.
    + rewrite length_app. cbn. lia.
    + lia.
Qed.

Lemma generateChain_numbered (config : ChainConfig) (r : Rng) :
  let c := fst (generateChain config r) in
  numbered (cfg_difficulty config) (steps c)
  /\ difficulty c = cfg_difficulty config.
Proof.
  unfold generateChain, generateStartingPair, bind, ret.
  destruct (randomInt (minLength config) (maxLength config) r) as [len r1].
  pose proof (randomInt_range _ _ r1
                (proj2 (startingNumbers_ok (cfg_difficulty config)))) as H1.
  destruct (randomInt _ _ r1) as [first r2].
  pose proof (randomInt_range _ _ r2
                (proj2 (startingNumbers_ok (cfg_difficulty config)))) as H2.
  destruct (randomInt _ _ r2) as [second r3]. cbn [fst] in H1, H2.
  match goal with |- context [remainingSteps ?n ?i ?d ?c ?l r3] =>
    pose proof (remainingSteps_numbered n i d c l r3) as H end.
  destruct (remainingSteps _ _ _ _ _ r3) as [[l' cur'] r4].
  cbn [fst steps difficulty] in *. split; [|reflexivity].
  apply H; [| reflexivity | lia].
  intros [|[|i]] st Hst; cbn in Hst; try discriminate.
  injection Hst as <-. split; [reflexivity|].
  unfold stepWithin. cbn. split; assumption.
Qed.

(** The addend of a step within its ranges is positive. *)
Lemma stepWithin_addend (d : ChainDifficulty) (st : ChainStep) :
  stepWithin d st -> 0 < addend st.
Proof.
  unfold stepWithin. destruct (stepNumber st =? 1).
  - pose proof (startingNumbers_ok d). cbv zeta. lia.
  - pose proof (getAddendRange_ok (stepNumber st) d). cbv zeta. lia.
Qed.

(** The last step of a non-empty list carries [lastResult]. *)
Lemma lastResult_last (l : list ChainStep) (p : Z) :
  l <> [] ->
  exists st, nth_error l (List.length l - 1) = Some st
             /\ result st = lastResult p l.
Proof.
  intros Hl. destruct (exists_last Hl) as (l0 & x & ->).
  exists x. rewrite lastResult_snoc. split; [|reflexivity].
  rewrite length_app. cbn.
  rewrite nth_error_app2 by lia.
  replace (List.length l0 + 1 - 1 - List.length l0)%nat with O by lia.
  reflexivity.
Qed.

(** X11. In every chain [generateChain] returns, step [i] (from 0) is
    numbered [i + 1]; the first step adds two starting numbers of the
    level and every later step an addend from the band of its number; all
    addends are positive, so the results increase strictly along the
    chain; [validateStepAnswer] accepts exactly the sum of a step's two
    operands; and [finalResult] is the result of the last step. *)
Theorem generateChain_steps (config : ChainConfig) (r : Rng) :
  let c := fst (generateChain config r) in
  (forall i st, nth_error (steps c) i = Some st ->
     stepNumber st = Z.of_nat i + 1
     /\ stepWithin (difficulty c) st
     /\ 0 < addend st
     /\ (forall u, validateStepAnswer st u = true
                   <-> u = previousResult st + addend st))
  /\ (forall i a b, nth_error (steps c) i = Some a ->
        nth_error (steps c) (S i) = Some b -> result a < result b)
  /\ (exists st, nth_error (steps c) (List.length (steps c) - 1) = Some st
                 /\ result st = finalResult c).
Proof.
  intros c.
  destruct (generateChain_shape config r) as ((first & Hl) & Hn & _ & Hlast).
  destruct (generateChain_numbered config r) as [Hnum Hd].
  fold c in Hl, Hn, Hlast, Hnum, Hd.
  destruct (linkedFrom_nth _ _ Hl) as [Hs Hp].
  rewrite Hd.
  assert (Hstep : forall i st, nth_error (steps c) i = Some st ->
            stepNumber st = Z.of_nat i + 1
            /\ stepWithin (cfg_difficulty config) st /\ 0 < addend st
            /\ result st = previousResult st + addend st).
  { intros i st H. destruct (Hnum i st H) as [H1 H2].
    repeat split; try assumption.
    - exact (stepWithin_addend _ _ H2).
    - exact (Hs i st H). }
  split; [|split].
  - intros i st H. destruct (Hstep i st H) as (H1 & H2 & H3 & H4).
    repeat split; try assumption; unfold validateStepAnswer; lia.
  - intros i a b Ha Hb.
    destruct (Hstep _ _ Hb) as (_ & _ & H3 & H4).
    rewrite H4, (Hp i a b Ha Hb). lia.
  - rewrite <- Hlast. apply lastResult_last.
    intros E. rewrite E in Hn. cbn in Hn. lia.
Qed.

End ChainStructure.

(** ** The chain store, continued *)

Section ChainPlay.

Import ChainEngine ChainStore.

(** Comparisons of lengths, as booleans. *)
Ltac length_cmp :=
  first [idtac; match goal with |- _ = true => idtac | |- _ = false => idtac end
        | symmetry];
  first [apply Z.leb_gt | apply Z.leb_le | apply Z.ltb_lt | apply Z.ltb_ge];
  lia.






(** X13. Submissions are not tied to the phase: when every step of the
    chain has a result and the index is on the last step, one more
    [submitAnswer] is accepted and recorded against the last step again;
    the game then holds more results than steps, and [endGame] no longer
    counts the chain as completed. *)
Theorem submit_after_last_step (s : State) (c : GeneratedChain) (a now : Z) :
  chain s = Some c ->
  1 <= stepsLength c ->
  currentStepIndex s = stepsLength c - 1 ->
  List.length (stepResults s) = List.length (steps c) ->
  exists st s',
    submitAnswer a now s = Some (a =? result st, s')
    /\ nth_error (steps c) (List.length (steps c) - 1) = Some st
    /\ phase s' = review
    /\ List.length (stepResults s') = S (List.length (steps c))
    /\ forall finish,
         totalChainsCompleted (endGame finish s) = totalChainsCompleted s + 1
         /\ totalChainsCompleted (endGame finish s') = totalChainsCompleted s
         /\ totalGamesPlayed (endGame finish s') = totalGamesPlayed s + 1.
Proof.
  intros Hc Hne Hi Hn.
  destruct (index_in_bounds (steps c) (currentStepIndex s)) as (st & Hx & Hnth).
  { unfold stepsLength in *. lia. }
  exists st. eexists. unfold submitAnswer. rewrite Hc.
  replace (stepsLength c <=? currentStepIndex s) with false by length_cmp.
  rewrite Hx. split; [reflexivity|].
  split.
  { rewrite <- Hnth. f_equal. unfold stepsLength in Hi. lia. }
  unfold record.
  replace (stepsLength c - 1 <=? currentStepIndex s) with true by length_cmp.
  cbn [phase stepResults]. split; [reflexivity|].
  split; [rewrite length_app, Hn; cbn; lia|].
  intros finish. unfold endGame. cbn [chain stepResults]. rewrite Hc.
  unfold stepsLength in Hne.
  destruct (stepResults s) as [|x xs] eqn:Hr; [cbn in Hn; lia|].
  cbn [app]. cbn [totalChainsCompleted totalGamesPlayed].
  unfold sessionStats, calculateChainStats. cbn [completed stepResults].
  rewrite Hr, Hn, Nat.eqb_refl.
  replace (Nat.eqb (List.length (x :: xs ++ _)) (List.length (steps c)))
    with false.
  - repeat split; lia.
  - symmetry. apply Nat.eqb_neq. cbn [List.length] in Hn |- *.
    rewrite length_app. cbn. lia.
Qed.

Lemma submit_after_last_step_witness :
  let c := fst (generateDefaultChain L2 (fun n => Z.of_nat n * 2 ^ 51)) in
  let s := match playAll (repeat None 10) 2000 midChain with
           | Some s1 => s1
           | None => midChain
           end in
  exists st s',
    submitAnswer 715 2500 s = Some (715 =? result st, s')
    /\ List.length (stepResults s') = 11%nat
    /\ totalChainsCompleted (endGame 3000 s) = 1
    /\ totalChainsCompleted (endGame 3000 s') = 0.
Proof.
  intros c s.
  destruct (submit_after_last_step s c 715 2500)
    as (st & s' & H1 & _ & _ & H2 & H3).
  - vm_compute. reflexivity.
  - vm_compute. discriminate.
  - vm_compute. reflexivity.
  - vm_compute. reflexivity.
  - exists st, s'. split; [exact H1|]. split; [exact H2|].
    destruct (H3 3000) as (H4 & H5 & _). split; [exact H4 | exact H5].
Defined.

(** [slice(-20)] after an append keeps the new entry and the nineteen
    before it. *)
Lemma slice_last_snoc {A} (h : list A) (e : A) :
  JS.slice_last 20 (h ++ [e]) = JS.slice_last 19 h ++ [e].
Proof.
  unfold JS.slice_last. rewrite length_app. cbn [List.length].
  replace (List.length h + 1 - 20)%nat with (List.length h - 19)%nat by lia.
  rewrite skipn_app.
  replace (List.length h - 19 - List.length h)%nat with O by lia.
  reflexivity.
Qed.

Lemma slice_last_length {A} (n : nat) (h : list A) :
  List.length (JS.slice_last n h) = Nat.min n (List.length h).
Proof. unfold JS.slice_last. rewrite length_skipn. lia. Qed.

(** X14. The persisted totals of the chain store stay consistent: they are
    in the initial state, and no action that returns breaks them: the
    chains completed never exceed the games played, and the history never
    holds more than twenty entries nor more entries than games played. *)
Theorem chain_totals_consistent :
  chainTotalsInv initialState
  /\ forall (a : Action) (s s' : State),
       chainTotalsInv s -> step a s = Some s' -> chainTotalsInv s'.
Proof.
  split.
  { unfold chainTotalsInv. cbn. lia. }
  intros a s s' (H1 & H2 & H3) Hstep. unfold chainTotalsInv.
  destruct a; cbn [step] in Hstep.
  - injection Hstep as <-. cbn. auto.
  - injection Hstep as <-. cbn. auto.
  - unfold submitAnswer in Hstep.
    destruct (chain s) as [c|]; [|injection Hstep as <-; auto].
    destruct (stepsLength c <=? currentStepIndex s);
      [injection Hstep as <-; auto|].
    destruct (JS.index _ _); [|discriminate].
    injection Hstep as <-. cbn. auto.
  - injection Hstep as <-. unfold skipStep.
    destruct (chain s) as [c|]; [|auto].
    destruct (stepsLength c <=? currentStepIndex s); [auto|]. cbn. auto.
  - injection Hstep as <-. unfold nextStep.
    destruct (chain s) as [c|]; [|auto].
    destruct (currentStepIndex s <? stepsLength c - 1); [cbn|]; auto.
  - injection Hstep as <-. cbn. auto.
  - injection Hstep as <-. unfold endGame.
    destruct (chain s) as [c|]; [|cbn; auto].
    destruct (stepResults s) as [|x xs]; [cbn; auto|].
    cbn [totalChainsCompleted totalGamesPlayed history].
    rewrite slice_last_snoc, length_app, slice_last_length. cbn [List.length].
    destruct (completed _); repeat split; lia.
  - injection Hstep as <-. cbn. auto.
Qed.

End ChainPlay.

(** ** The simple store and the arithmetic mode, continued *)

Section SimpleStoreProperties.

Import GameStore.

Lemma step_statsInv (a : Action) (s : GameState) :
  statsInv (stats s) -> statsInv (stats (step a s)).
Proof.
  intros H. destruct a; cbn [step]; try exact H.
  - unfold statsInv in *. unfold submitAnswer.
    cbn [snd stats totalQuestions correctAnswers currentStreak bestStreak
         sessionTimes].
    rewrite length_app. cbn [List.length].
    destruct (sameAnswer _ _); lia.
  - unfold statsInv. cbn. lia.
Qed.

(** X16. The statistics of the simple store stay consistent through every
    sequence of actions from the initial state: the current streak is
    between 0 and the best streak and is at most the number of correct
    answers, which is at most the number of questions, which is the number
    of recorded times. *)
Theorem simple_store_stats_consistent (actions : list Action) :
  statsInv (stats (runGame actions initialState)).
Proof.
  unfold runGame.
  assert (H : statsInv (stats initialState)) by (unfold statsInv; cbn; lia).
  revert H. generalize initialState.
  induction actions as [|a rest IH]; intros s H; cbn [fold_left].
  - exact H.
  - apply IH. apply step_statsInv. exact H.
Qed.

(** X17. Answering a generated arithmetic problem through [handleAnswer]:
    the question is counted, and it is counted as correct, extending the
    streak, exactly when the answer is the sum (for an addition) or the
    difference (for a subtraction) of the two operands of the problem;
    any other answer resets the streak. *)
Theorem handleAnswer_generated
    (choice : MathEngine.OperationChoice) (d : Level) (r : Rng)
    (u now : Z) (s : GameState) :
  let p := fst (MathEngine.generateProblem choice d r) in
  let expected := match MathGame.operation p with
                  | MathGame.addition => MathGame.operand1 p + MathGame.operand2 p
                  | MathGame.subtraction => MathGame.operand1 p - MathGame.operand2 p
                  end in
  let s' := MathGame.handleAnswer (Some p) u now s in
  totalQuestions (stats s') = totalQuestions (stats s) + 1
  /\ currentAnswer s' = Some expected
  /\ (u = expected ->
      correctAnswers (stats s') = correctAnswers (stats s) + 1
      /\ currentStreak (stats s') = currentStreak (stats s) + 1)
  /\ (u <> expected ->
      correctAnswers (stats s') = correctAnswers (stats s)
      /\ currentStreak (stats s') = 0).
Proof.
  intros p expected s'.
  destruct (generateProblem_fields choice d r) as (_ & Hans & _).
  fold p in Hans. fold expected in Hans.
  unfold s', MathGame.handleAnswer, submitAnswer, setQuestion.
  cbn [snd stats totalQuestions correctAnswers currentStreak currentAnswer
       sameAnswer].
  rewrite Hans.
  split; [reflexivity|]. split; [reflexivity|]. split.
  - intros ->. rewrite Z.eqb_refl. split; reflexivity.
  - intros Hne. apply Z.eqb_neq in Hne. rewrite Hne. split; [lia | reflexivity].
Qed.

End SimpleStoreProperties.

(** ** The divisibility store, continued *)

Section DivisibilityRound.

Import DivisibilityEngine DivisibilityStore.

Lemma count_le_length {A} (p : A -> bool) (xs : list A) :
  count p xs <= Z.of_nat (List.length xs).
Proof. unfold count. pose proof (filter_length_le p xs). lia. Qed.

Lemma count_one {A} (p : A -> bool) (x : A) :
  count p [x] = if p x then 1 else 0.
Proof. unfold count. cbn. destruct (p x); reflexivity. Qed.

(** X18. One round of the divisibility game.  Right after [startGame] a
    remainder answer is refused and changes nothing, since the
    divisibility question comes first.  The divisibility answer is
    correct exactly when it says whether the divisor divides the dividend.
    The remainder answer that follows is judged by
    [validateRemainderAnswer], which accepts [dividend mod divisor]; the
    round is recorded as one result holding both verdicts, and [endGame]
    adds them to the persisted totals. *)
Theorem divisibility_round (rng : Rng) (start now : Z) (s : State)
    (b : bool) (u : Z) :
  let s0 := startGame rng start s in
  let p := fst (generateDefaultProblem (difficulty s) rng) in
  let divides := dividend p mod divisor p =? 0 in
  let s1 := snd (submitDivisibilityAnswer b s0) in
  let ok := fst (submitRemainderAnswer u now s1) in
  let s2 := snd (submitRemainderAnswer u now s1) in
  submitRemainderAnswer u now s0 = (false, s0)
  /\ fst (submitDivisibilityAnswer b s0) = Bool.eqb b divides
  /\ ok = validateRemainderAnswer p u (acceptNegativeRemainders s)
  /\ (u = dividend p mod divisor p -> ok = true)
  /\ phase s2 = feedback
  /\ map verdict (results s2) = [(p, Some b, Some u, Bool.eqb b divides, ok)]
  /\ totalProblemsAttempted (endGame s2) = totalProblemsAttempted s + 1
  /\ totalCorrectDivisibility (endGame s2)
     = totalCorrectDivisibility s + (if Bool.eqb b divides then 1 else 0)
  /\ totalCorrectRemainder (endGame s2)
     = totalCorrectRemainder s + (if ok then 1 else 0).
Proof.
  intros s0 p divides s1 ok s2.
  pose proof (generated_invariant
                {| cfg_difficulty := difficulty s;
                   remainderType := positive_only;
                   includeExactDivisibility := true |} rng) as [Hinv _].
  change (divisibilityInvariant p) in Hinv.
  destruct (invariant_validators p Hinv) as (Hmod & _ & Hdiv & Hrem0 & Hrem1 & _).
  assert (Hd : isDivisible p = divides).
  { unfold divides. rewrite <- Hmod.
    destruct Hinv as (_ & _ & _ & Hiff).
    destruct (isDivisible p); symmetry.
    - apply Z.eqb_eq. apply Hiff. reflexivity.
    - apply Z.eqb_neq. intros H0. apply Hiff in H0. discriminate. }
  assert (Hok : ok = validateRemainderAnswer p u (acceptNegativeRemainders s))
    by reflexivity.
  assert (Hv : validateDivisibilityAnswer p b = Bool.eqb b divides).
  { unfold validateDivisibilityAnswer. rewrite Hd. reflexivity. }
  split; [reflexivity|].
  split; [exact Hv|].
  split; [exact Hok|].
  split.
  { intros Hu. rewrite Hok.
    destruct (acceptNegativeRemainders s).
    - apply Hrem1. rewrite Hu. split.
      + apply Z.mod_mod. destruct Hinv as (_ & ? & _). lia.
      + destruct Hinv as (_ & ? & _).
        pose proof (Z.mod_pos_bound (dividend p) (divisor p) ltac:(lia)). lia.
    - apply Hrem0. exact Hu. }
  split; [reflexivity|].
  split.
  { unfold s2, s1, s0, submitRemainderAnswer, submitDivisibilityAnswer, startGame.
    cbn [snd currentProblem userDivisibilityAnswer results divisibilityResult
         acceptNegativeRemainders app map verdict problem
         res_userDivisibilityAnswer userRemainderAnswer divisibilityCorrect
         remainderCorrect].
    fold p. rewrite Hv. rewrite Hok.
    destruct (Bool.eqb b divides); reflexivity. }
  unfold endGame.
  cbn [totalProblemsAttempted totalCorrectDivisibility totalCorrectRemainder].
  assert (Hres : results s2
                 = [{| problem := p;
                       res_userDivisibilityAnswer := Some b;
                       userRemainderAnswer := Some u;
                       divisibilityCorrect := Bool.eqb b divides;
                       remainderCorrect := ok;
                       timeMs := match JS.truthy (Some start) with
                                 | Some t => now - t
                                 | None => 0
                                 end |}]).
  { unfold s2, s1, s0, submitRemainderAnswer, submitDivisibilityAnswer, startGame.
    cbn [snd currentProblem userDivisibilityAnswer results divisibilityResult
         acceptNegativeRemainders app problemStartTime].
    fold p. rewrite Hv, Hok.
    destruct (Bool.eqb b divides); reflexivity. }
  rewrite Hres, !count_one. cbn [List.length divisibilityCorrect remainderCorrect].
  unfold s2, s1, s0, submitRemainderAnswer, submitDivisibilityAnswer, startGame.
  cbn [snd currentProblem userDivisibilityAnswer totalProblemsAttempted
       totalCorrectDivisibility totalCorrectRemainder].
  repeat split; lia.
Qed.

(** X19. The persisted totals of the divisibility store stay consistent:
    they are in the initial state and every action keeps them so: neither
    count of correct answers is negative or exceeds the number of
    problems attempted. *)
Theorem divisibility_totals_consistent :
  divisibilityTotalsInv initialState
  /\ forall (a : Action) (s : State),
       divisibilityTotalsInv s -> divisibilityTotalsInv (step a s).
Proof.
  split.
  { unfold divisibilityTotalsInv. cbn. lia. }
  assert (Hend : forall s, divisibilityTotalsInv s -> divisibilityTotalsInv (endGame s)).
  { intros s (H1 & H2 & H3). unfold divisibilityTotalsInv, endGame.
    cbn [totalCorrectDivisibility totalCorrectRemainder totalProblemsAttempted
         totalGamesPlayed].
    pose proof (count_nonneg divisibilityCorrect (results s)).
    pose proof (count_nonneg remainderCorrect (results s)).
    pose proof (count_le_length divisibilityCorrect (results s)).
    pose proof (count_le_length remainderCorrect (results s)).
    repeat split; lia. }
  intros a s H. destruct a; cbn [step]; try exact H; try (apply Hend; exact H).
  - unfold submitDivisibilityAnswer. destruct (currentProblem s); exact H.
  - unfold submitRemainderAnswer.
    destruct (currentProblem s); [|exact H].
    destruct (userDivisibilityAnswer s); exact H.
  - unfold nextProblem. destruct (maxProblems s <=? problemCount s);
      [apply Hend; exact H | exact H].
Qed.

(** X20. The accuracy [getSessionAccuracy] reports is the one [endGame]
    records: [endGame] raises [bestAccuracy] to the larger of its old value
    and [getSessionAccuracy], and adds to each total the count of the
    session; and [nextProblem], once [problemCount] has reached
    [maxProblems], does exactly what [endGame] does. *)
Theorem endGame_records_session_accuracy (s : State) :
  bestAccuracy (endGame s) = JS.Math_max (bestAccuracy s) (getSessionAccuracy s)
  /\ totalProblemsAttempted (endGame s)
     = totalProblemsAttempted s + Z.of_nat (List.length (results s))
  /\ totalCorrectDivisibility (endGame s) - totalCorrectDivisibility s
     <= Z.of_nat (List.length (results s))
  /\ totalCorrectRemainder (endGame s) - totalCorrectRemainder s
     <= Z.of_nat (List.length (results s))
  /\ (forall rng now, maxProblems s <= problemCount s ->
        nextProblem rng now s = endGame s)
  /\ (forall rng now, problemCount s < maxProblems s ->
        let s' := nextProblem rng now s in
        problemCount s' = problemCount s + 1
        /\ results s' = results s
        /\ userDivisibilityAnswer s' = None
        /\ totalGamesPlayed s' = totalGamesPlayed s).
Proof.
  assert (Hacc : getSessionAccuracy s = sessionAccuracy (results s)).
  { unfold getSessionAccuracy, sessionAccuracy.
    destruct (results s) as [|x xs]; [reflexivity|].
    replace (0 <? Z.of_nat (List.length (x :: xs)) * 2) with true;
      [reflexivity|].
    symmetry. apply Z.ltb_lt. cbn [List.length]. lia. }
  rewrite Hacc.
  pose proof (count_le_length divisibilityCorrect (results s)).
  pose proof (count_le_length remainderCorrect (results s)).
  split; [reflexivity|]. split; [reflexivity|].
  split; [unfold endGame; cbn [totalCorrectDivisibility]; lia|].
  split; [unfold endGame; cbn [totalCorrectRemainder]; lia|].
  split.
  - intros rng now Hle. unfold nextProblem.
    replace (maxProblems s <=? problemCount s) with true
      by (symmetry; apply Z.leb_le; assumption). reflexivity.
  - intros rng now Hlt. unfold nextProblem.
    replace (maxProblems s <=? problemCount s) with false
      by (symmetry; apply Z.leb_gt; assumption).
    cbn. repeat split.
Qed.

End DivisibilityRound.
